(** * Order placement across the order service and the product service

    A shallow embedding of [order_service/main.py] and
    [product_service/main.py]: the inventory-reservation client with its
    retry loop, the reservation server, the order-placement orchestrator,
    the bearer-token dependency and the best-effort event publication.

    Conventions of the embedding.
    - Python [int] is [Z]; SQL tables are finite maps keyed by the [id]
      column; dictionaries sent over HTTP are [gmap string Z].
    - A coroutine that mutates the database, the message broker, the log or
      the remote service is a function from a world to a result and a new
      world.  A Python exception is the [Raise] result.
    - What the libraries decide (the JWT library, the HTTP transport, the
      broker connection) is an input of the function that calls them.
    - Statements against the database are taken to succeed, except the
      [INSERT] of [insert_order], whose failure the orchestrator has to
      survive, and the two statements whose integer argument comes from
      the caller unchecked and can leave the range of its column: the
      [UPDATE] of the reservation handler and the [DELETE] of
      [delete_order]. *)

From Stdlib Require Import ZArith QArith Lia Lqa.
From stdpp Require Import gmap strings list fin_maps sorting.

Open Scope Z_scope.

(** ** Exceptions and HTTP replies *)

Inductive transport_error := ReadTimeout | ConnectError.

Inductive exn :=
| HTTPException (code : Z) (detail : option string)
| HttpxError (e : transport_error)
| JSONDecodeError
| PostgresError.

Inductive outcome (A : Type) :=
| Return (a : A)
| Raise (e : exn).
Arguments Return {A} a.
Arguments Raise {A} e.

(** The JSON body of a reply: the handler's own value, or what the two
    exception handlers registered on the application (and the server's
    default one) produce. *)
Inductive content (A : Type) :=
| Ok (a : A)
| HttpError (detail : option string)
| ValidationError
| InternalServerError.
Arguments Ok {A} a.
Arguments HttpError {A} detail.
Arguments ValidationError {A}.
Arguments InternalServerError {A}.

Record reply (A : Type) := Reply { status_code : Z; body : content A }.
Arguments Reply {A} status_code body.
Arguments status_code {A} r.
Arguments body {A} r.

(** [http_exception_handler] for [HTTPException]; any other exception
    leaves the handler and is answered 500. *)
Definition respond {A} (o : outcome A) : reply A :=
  match o with
  | Return a => Reply 200 (Ok a)
  | Raise (HTTPException code detail) => Reply code (HttpError detail)
  | Raise _ => Reply 500 InternalServerError
  end.

(** [validation_exception_handler]. *)
Definition unprocessable {A} : reply A := Reply 422 ValidationError.

(** ** Requests *)

Record Request := {
  authorization : option string;   (* the Authorization header *)
  query : gmap string Z;           (* the query string *)
  form : gmap string Z             (* a form-encoded body *)
}.

(** ** Bearer tokens *)

Inductive jwt_error := Malformed | InvalidSignature | Expired | InvalidClaims.

Inductive jwt_result :=
| JWTError (k : jwt_error)
| Payload (sub : option string).

(** The two library calls of the authentication dependency:
    [OAuth2PasswordBearer] takes the token out of the header ([None] when
    the header is missing or its scheme is not bearer), and [jwt.decode]
    checks it against the configured secret and algorithm. *)
Class AuthLib := {
  bearer_token : option string -> option string;
  jwt_decode : string -> jwt_result
}.

Definition credentials_exception : exn :=
  HTTPException 401 (Some "Could not validate credentials").

Definition not_authenticated : exn :=
  HTTPException 401 (Some "Not authenticated").

(** ** Integer columns *)

(** The declarations of the tables are not part of the sources.  What
    the two statements above need of them is which integers the [id]
    column of the orders and the [quantity] column of the products can
    hold (for an [INTEGER] or a [BIGINT] column, an interval around
    zero); a value outside is refused by the driver or by the server, and
    the statement raises. *)
Class Columns := {
  order_id_fits : Z -> bool;
  quantity_fits : Z -> bool
}.

(** ** The message broker *)

Inductive event :=
| OrderCreated (username : string) (product_id quantity : Z)
| InventoryReserved (product_id quantity : Z).

(** What one publication does: it goes through, or some call inside the
    [try] raises; [sent] tells whether [basic_publish] had already returned
    (so the exception came from [connection.close()]). *)
Inductive bus_outcome :=
| BusOk
| BusRaises (sent : bool).

Definition sent_on (b : bus_outcome) : bool :=
  match b with
  | BusOk => true
  | BusRaises sent => sent
  end.

(** * The product service *)

Module Product.

Record product_row := { id : Z; name : string; quantity : Z }.

Definition set_quantity (q : Z) (p : product_row) : product_row :=
  {| id := id p; name := name p; quantity := q |}.

Record World := {
  products : gmap Z product_row;   (* product_service.products *)
  next_id : Z;
  inventory : list event;          (* the 'inventory' exchange *)
  log : list string                (* logging.warning *)
}.

Definition with_products (m : gmap Z product_row) (w : World) : World :=
  {| products := m; next_id := next_id w;
     inventory := inventory w; log := log w |}.

Definition stock (w : World) (product_id : Z) : option Z :=
  quantity <$> products w !! product_id.

Inductive done :=
| Reserved                          (* {"status": "reserved"} *)
| ProductAdded (row : product_row)  (* {"msg": "Product added", "data": row} *)
| ProductDeleted (product_id : Z).

(** The [try] block that ends [reserve_inventory]. *)
Definition publish_inventory_event (product_id quantity : Z)
    (bus : bus_outcome) (w : World) : World :=
  {| products := products w;
     next_id := next_id w;
     inventory :=
       if sent_on bus
       then inventory w ++ [InventoryReserved product_id quantity]
       else inventory w;
     log :=
       match bus with
       | BusOk => log w
       | BusRaises _ => log w ++ ["Could not publish inventory event"]
       end |}.

Section Database.
Context {cols : Columns}.

(** Whether [UPDATE ... SET quantity = quantity - $1] is refused.  The
    stock is a value of the column and [$1] has passed the guard, so for
    a [$1] that is not negative the difference lies between zero and the
    stock and the statement goes through; a negative [$1] is refused when
    it does not fit the column itself or takes the difference out of the
    column's range. *)
Definition update_refused (stock quantity : Z) : bool :=
  (quantity <? 0)
  && negb (quantity_fits quantity && quantity_fits (stock - quantity)).

(** [reserve_inventory], the body of [POST /inventory/reserve]. *)
Definition reserve_inventory (product_id quantity : Z) (bus : bus_outcome)
    (w : World) : outcome done * World :=
  match products w !! product_id with
  | None => (Raise (HTTPException 404 (Some "Product not found")), w)
  | Some product =>
      if Product.quantity product <? quantity
      then (Raise (HTTPException 409 (Some "Insufficient stock")), w)
      else if update_refused (Product.quantity product) quantity
      then (Raise PostgresError, w)
      else
        let w1 :=
          with_products
            (alter (fun p => set_quantity (Product.quantity p - quantity) p)
                   product_id (products w)) w in
        (Return Reserved, publish_inventory_event product_id quantity bus w1)
  end.

(** Modelled from the spec: the table definition is not part of the
    sources; the identifier of a new row is assigned by persistence, here
    a counter, and a row is never inserted over an existing identifier. *)
Definition insert_product (name : string) (quantity : Z) (w : World)
    : outcome product_row * World :=
  match products w !! next_id w with
  | Some _ => (Raise PostgresError, w)
  | None =>
      let row := {| id := next_id w; name := name; quantity := quantity |} in
      (Return row,
       {| products := <[next_id w := row]> (products w);
          next_id := next_id w + 1;
          inventory := inventory w; log := log w |})
  end.

(** [add_product], the body of [POST /products]. *)
Definition add_product (name : string) (quantity : Z) (w : World)
    : outcome done * World :=
  match insert_product name quantity w with
  | (Return row, w') => (Return (ProductAdded row), w')
  | (Raise e, w') => (Raise e, w')
  end.

(** [delete_product], the body of [DELETE /products/{product_id}]. *)
Definition delete_product (product_id : Z) (w : World)
    : outcome done * World :=
  match products w !! product_id with
  | None => (Raise (HTTPException 404 (Some "Product not found")), w)
  | Some _ =>
      (Return (ProductDeleted product_id),
       with_products (delete product_id (products w)) w)
  end.

Section Endpoints.
Context `{AuthLib}.

(** [get_current_user] of the product service: an empty subject is
    refused as well ([if not username]). *)
Definition get_current_user (request : Request) : outcome string :=
  match bearer_token (authorization request) with
  | None => Raise not_authenticated
  | Some token =>
      match jwt_decode token with
      | JWTError _ => Raise credentials_exception
      | Payload None => Raise credentials_exception
      | Payload (Some username) =>
          if String.eqb username "" then Raise credentials_exception
          else Return username
      end
  end.

(** [POST /inventory/reserve] as declared:
    [reserve_inventory(product_id: int, quantity: int, user=Depends(...))].
    The dependency runs first; the two plain [int] parameters, declared
    without [Body] or [Form], are read from the query string, and a
    missing one is a validation error. *)
Definition reserve_endpoint (request : Request) (bus : bus_outcome)
    (w : World) : reply done * World :=
  match get_current_user request with
  | Raise e => (respond (Raise e), w)
  | Return user =>
      match query request !! "product_id", query request !! "quantity" with
      | Some product_id, Some quantity =>
          let '(o, w') := reserve_inventory product_id quantity bus w in
          (respond o, w')
      | _, _ => (unprocessable, w)
      end
  end.

(** The other two protected routes; their arguments arrive validated
    ([ProductCreate] body, path parameter). *)
Inductive call :=
| PostProducts (name : string) (quantity : Z)
| PostInventoryReserve (bus : bus_outcome)
| DeleteProducts (product_id : Z).

Definition serve (c : call) (request : Request) (w : World)
    : reply done * World :=
  match c with
  | PostInventoryReserve bus => reserve_endpoint request bus w
  | PostProducts name quantity =>
      match get_current_user request with
      | Raise e => (respond (Raise e), w)
      | Return user =>
          let '(o, w') := add_product name quantity w in (respond o, w')
      end
  | DeleteProducts product_id =>
      match get_current_user request with
      | Raise e => (respond (Raise e), w)
      | Return user =>
          let '(o, w') := delete_product product_id w in (respond o, w')
      end
  end.
End Endpoints.
End Database.

End Product.

(** * The order service *)

Module Order.

Record order_row := {
  id : Z;
  productname : string;
  product_id : Z;
  quantity : Z;
  username : string;
  status : string
}.

(** What one [client.post] gives the caller: a response, of which the
    loop reads the status code and, through [resp.json().get("detail")],
    the detail ([None] when the body is not a JSON object), or an
    exception of the transport. *)
Inductive attempt :=
| Answers (status : Z) (detail : option (option string))
| Fails (e : transport_error).

(** The order service together with what it talks to; [R] is the state
    of the remote inventory service. *)
Record World (R : Type) := {
  orders : gmap Z order_row;       (* order_service.orders *)
  next_id : Z;
  remote : R;
  posts : list Request;            (* requests sent to the remote, oldest first *)
  slept : list Q;                  (* asyncio.sleep, oldest first *)
  orders_exchange : list event;    (* the 'orders' exchange *)
  log : list string                (* logging.warning *)
}.
Arguments orders {R} w.
Arguments next_id {R} w.
Arguments remote {R} w.
Arguments posts {R} w.
Arguments slept {R} w.
Arguments orders_exchange {R} w.
Arguments log {R} w.

Inductive done :=
| OrderPlaced (order : order_row)   (* {"msg": "Order placed", "data": order} *)
| OrderDeleted (order_id : Z)
| Orders (rows : list order_row).

(** The result of one pass through the [try] block of the retry loop. *)
Inductive pass :=
| Returns
| Raises (e : exn)
| FallsThrough.

Record env := { insert_ok : bool; bus : bus_outcome }.

Section Service.
Context {R : Type} {cols : Columns}.
(** The remote end of [client.post(reserve_url, ...)]. *)
Variable post : Request -> R -> attempt * R.

Definition sent (request : Request) (r : R) (w : World R) : World R :=
  {| orders := orders w; next_id := next_id w; remote := r;
     posts := posts w ++ [request]; slept := slept w;
     orders_exchange := orders_exchange w; log := log w |}.

Definition sleep (delay : Q) (w : World R) : World R :=
  {| orders := orders w; next_id := next_id w; remote := remote w;
     posts := posts w; slept := slept w ++ [delay];
     orders_exchange := orders_exchange w; log := log w |}.

Definition backoff : list Q := [0.2; 0.5; 1.0]%Q.

(** The request of one attempt: the two arguments as form data, the
    caller's Authorization header copied when it is there and not
    empty. *)
Definition outbound (request : Request) (product_id quantity : Z) : Request :=
  {| authorization :=
       match authorization request with
       | Some auth_header =>
           if String.eqb auth_header "" then None else Some auth_header
       | None => None
       end;
     query := ∅;
     form := <["product_id" := product_id]> {["quantity" := quantity]} |}.

Definition try_body (a : attempt) : pass :=
  match a with
  | Fails e => Raises (HttpxError e)
  | Answers status detail =>
      if status =? 200 then Returns
      else if (status =? 404) || (status =? 409) then
        match detail with
        | Some d => Raises (HTTPException status d)
        | None => Raises JSONDecodeError
        end
      else FallsThrough
  end.

(** [for delay in backoff: try: ... except Exception as exc: ...] and
    the test of [last_exc] after the loop. *)
Fixpoint reserve_loop (delays : list Q) (last_exc : option exn)
    (request : Request) (w : World R) : outcome unit * World R :=
  match delays with
  | [] =>
      match last_exc with
      | Some _ =>
          (Raise (HTTPException 502 (Some "Inventory service unavailable")), w)
      | None => (Return tt, w)
      end
  | delay :: rest =>
      let '(a, r) := post request (remote w) in
      let w1 := sent request r w in
      match try_body a with
      | Returns => (Return tt, w1)
      | Raises exc => reserve_loop rest (Some exc) request (sleep delay w1)
      | FallsThrough => reserve_loop rest last_exc request w1
      end
  end.

Definition reserve_inventory (request : Request) (product_id quantity : Z)
    (w : World R) : outcome unit * World R :=
  reserve_loop backoff None (outbound request product_id quantity) w.

(** Modelled from the spec: the table definition is not part of the
    sources; the identifier of a new row is assigned by persistence,
    here a counter, and a row is never inserted over an existing
    identifier.  The statement itself is the one of [insert_order]. *)
Definition insert_order (productname : string) (product_id quantity : Z)
    (username : string) (ok : bool) (w : World R)
    : outcome order_row * World R :=
  if negb ok then (Raise PostgresError, w)
  else
    match orders w !! next_id w with
    | Some _ => (Raise PostgresError, w)
    | None =>
        let row :=
          {| id := next_id w; productname := productname;
             product_id := product_id; quantity := quantity;
             username := username; status := "CONFIRMED" |} in
        (Return row,
         {| orders := <[next_id w := row]> (orders w);
            next_id := next_id w + 1; remote := remote w;
            posts := posts w; slept := slept w;
            orders_exchange := orders_exchange w; log := log w |})
    end.

Definition publish_order_event (username : string)
    (product_id quantity : Z) (b : bus_outcome) (w : World R) : World R :=
  {| orders := orders w; next_id := next_id w; remote := remote w;
     posts := posts w; slept := slept w;
     orders_exchange :=
       if sent_on b
       then orders_exchange w ++ [OrderCreated username product_id quantity]
       else orders_exchange w;
     log :=
       match b with
       | BusOk => log w
       | BusRaises _ => log w ++ ["Could not publish order event"]
       end |}.

(** [create_order], the body of [POST /orders]. *)
Definition create_order (productname : string) (product_id quantity : Z)
    (request : Request) (user : string) (e : env) (w : World R)
    : outcome done * World R :=
  match reserve_inventory request product_id quantity w with
  | (Raise exc, w1) => (Raise exc, w1)
  | (Return _, w1) =>
      match insert_order productname product_id quantity user (insert_ok e) w1 with
      | (Raise exc, w2) => (Raise exc, w2)
      | (Return order, w2) =>
          (Return (OrderPlaced order),
           publish_order_event user product_id quantity (bus e) w2)
      end
  end.

(** [delete_order], the body of [DELETE /orders/{order_id}]: the
    statement names the identifier only.  An identifier that is in the
    table fits its column; one that is not is looked for in vain
    ("DELETE 0") when it fits, and makes the statement raise when it does
    not. *)
Definition delete_order (order_id : Z) (user : string) (w : World R)
    : outcome done * World R :=
  match orders w !! order_id with
  | None =>
      if order_id_fits order_id
      then (Raise (HTTPException 404 (Some "Order not found")), w)
      else (Raise PostgresError, w)
  | Some _ =>
      (Return (OrderDeleted order_id),
       {| orders := delete order_id (orders w);
          next_id := next_id w; remote := remote w;
          posts := posts w; slept := slept w;
          orders_exchange := orders_exchange w; log := log w |})
  end.

(** [list_orders], the body of [GET /orders]. *)
Definition list_orders (user : string) (w : World R)
    : outcome done * World R :=
  (Return (Orders (snd <$> map_to_list
             (filter (fun kr => username (snd kr) = user) (orders w)))),
   w).

Context `{AuthLib}.

(** [get_current_user] of the order service. *)
Definition get_current_user (request : Request) : outcome string :=
  match bearer_token (authorization request) with
  | None => Raise not_authenticated
  | Some token =>
      match jwt_decode token with
      | JWTError _ => Raise credentials_exception
      | Payload None => Raise credentials_exception
      | Payload (Some username) => Return username
      end
  end.

(** The three routes, each behind [Depends(get_current_user)]; their
    arguments arrive validated (JSON body, path parameter). *)
Inductive call :=
| PostOrders (productname : string) (product_id quantity : Z) (e : env)
| DeleteOrders (order_id : Z)
| GetOrders.

Definition handle (c : call) (request : Request) (user : string)
    (w : World R) : outcome done * World R :=
  match c with
  | PostOrders productname product_id quantity e =>
      create_order productname product_id quantity request user e w
  | DeleteOrders order_id => delete_order order_id user w
  | GetOrders => list_orders user w
  end.

Definition serve (c : call) (request : Request) (w : World R)
    : reply done * World R :=
  match get_current_user request with
  | Raise exc => (respond (Raise exc), w)
  | Return user =>
      let '(o, w') := handle c request user w in (respond o, w')
  end.
End Service.

End Order.

(** * The two services wired together, and sample data *)

Module System.

(** What the client reads off a reply of the product service: the
    status code and [resp.json().get("detail")], which the loop looks at
    for 404 and 409 only; the plain-text 500 has no JSON body. *)
Definition attempt_of {A} (r : reply A) : Order.attempt :=
  Order.Answers (status_code r)
    match body r with
    | Ok _ => Some None
    | HttpError detail => Some detail
    | ValidationError => Some None
    | InternalServerError => None
    end.

Section Wiring.
Context {cols : Columns} `{AuthLib}.

(** The remote end as the product service declares it: the request of
    the client is handed to [reserve_endpoint]. *)
Definition declared_post (b : bus_outcome) (request : Request)
    (r : Product.World) : Order.attempt * Product.World :=
  let '(answer, r') := Product.reserve_endpoint request b r in
  (attempt_of answer, r').


End Wiring.

(** Three kinds of remote end, by what every attempt meets there: a
    business rejection, a server error, a transport failure. *)
Section Remotes.
Context {R : Type} (post : Request -> R -> Order.attempt * R).

Definition always_rejects : Prop :=
  forall request r, exists code detail r',
    post request r = (Order.Answers code detail, r')
    /\ (code = 404 \/ code = 409).

Definition always_faults : Prop :=
  forall request r, exists code detail r',
    post request r = (Order.Answers code detail, r')
    /\ 500 <= code <= 599.

Definition always_fails : Prop :=
  forall request r, exists e r', post request r = (Order.Fails e, r').
End Remotes.

(** A remote end without state that gives the same answer each time. *)
Definition constant_post (a : Order.attempt) (request : Request) (r : unit)
    : Order.attempt * unit := (a, r).

(** A remote end that runs the reservation handler on the two fields of
    the form body, the arguments the client sends. *)
Definition handler_post {cols : Columns} (b : bus_outcome) (request : Request)
    (r : Product.World) : Order.attempt * Product.World :=
  match form request !! "product_id", form request !! "quantity" with
  | Some product_id, Some quantity =>
      let '(o, r') := Product.reserve_inventory product_id quantity b r in
      (attempt_of (respond o), r')
  | _, _ => (attempt_of (@unprocessable Product.done), r)
  end.

(** Both columns as [BIGINT]. *)
Definition int8 : Columns :=
  {| order_id_fits := fun z =>
       (-9223372036854775808 <=? z) && (z <=? 9223372036854775807);
     quantity_fits := fun z =>
       (-9223372036854775808 <=? z) && (z <=? 9223372036854775807) |}.

(** Both columns as [INTEGER], for the examples. *)
Definition int4 : Columns :=
  {| order_id_fits := fun z => (-2147483648 <=? z) && (z <=? 2147483647);
     quantity_fits := fun z => (-2147483648 <=? z) && (z <=? 2147483647) |}.

(** A remote end that plays a script, one entry per attempt, and refuses
    the connection once the script is over. *)
Definition scripted_post (request : Request) (r : list Order.attempt)
    : Order.attempt * list Order.attempt :=
  match r with
  | a :: r' => (a, r')
  | [] => (Order.Fails ConnectError, [])
  end.

(** A toy token library: the header is [Bearer <token>], and five tokens
    are known. *)
Definition toy_bearer_token (header : option string) : option string :=
  match header with
  | Some h =>
      if String.prefix "Bearer " h
      then Some (String.substring 7 (String.length h - 7) h)
      else None
  | None => None
  end.

Definition toy_jwt_decode (token : string) : jwt_result :=
  if String.eqb token "alice.jwt" then Payload (Some "alice")
  else if String.eqb token "bob.jwt" then Payload (Some "bob")
  else if String.eqb token "expired.jwt" then JWTError Expired
  else if String.eqb token "forged.jwt" then JWTError InvalidSignature
  else if String.eqb token "nosub.jwt" then Payload None
  else JWTError Malformed.

Definition toy_lib : AuthLib :=
  {| bearer_token := toy_bearer_token; jwt_decode := toy_jwt_decode |}.

Definition bearer (token : string) : Request :=
  {| authorization := Some ("Bearer " ++ token)%string;
     query := ∅; form := ∅ |}.

(** A shelf with one product, identifier 42, five in stock. *)
Definition shelf : Product.World :=
  {| Product.products :=
       {[ 42 := {| Product.id := 42; Product.name := "widget";
                   Product.quantity := 5 |} ]};
     Product.next_id := 43;
     Product.inventory := [];
     Product.log := [] |}.

Definition empty_shelf : Product.World :=
  {| Product.products := ∅; Product.next_id := 1;
     Product.inventory := []; Product.log := [] |}.

(** The shelf after [POST /products] with a quantity of [-5], which
    [ProductCreate] accepts: product 1 holds [-5]. *)
Definition overdrawn_shelf : Product.World :=
  snd (Product.add_product "voucher" (-5) empty_shelf).

(** An order service with no order yet. *)
Definition fresh {R} (r : R) : Order.World R :=
  {| Order.orders := ∅; Order.next_id := 1; Order.remote := r;
     Order.posts := []; Order.slept := [];
     Order.orders_exchange := []; Order.log := [] |}.

(** Order 1 belongs to alice. *)
Definition alices_order : Order.order_row :=
  {| Order.id := 1; Order.productname := "widget"; Order.product_id := 42;
     Order.quantity := 2; Order.username := "alice";
     Order.status := "CONFIRMED" |}.

Definition after_alice {R} (r : R) : Order.World R :=
  {| Order.orders := {[ 1 := alices_order ]}; Order.next_id := 2;
     Order.remote := r; Order.posts := []; Order.slept := [];
     Order.orders_exchange := []; Order.log := [] |}.

(** The order service as a transition system: one transition per
    request served.  ([ensure_order_table], run at start-up, adds the
    [productname] column when it is missing and touches no row that
    [insert_order] wrote.) *)
Section Transitions.
Context {R : Type} {cols : Columns}
  (post : Request -> R -> Order.attempt * R) `{AuthLib}.

Inductive step : Order.World R -> Order.World R -> Prop :=
| step_serve (c : Order.call) (request : Request) (w : Order.World R) :
    step w (snd (Order.serve post c request w)).

Inductive reachable : Order.World R -> Prop :=
| reachable_fresh (r : R) : reachable (fresh r)
| reachable_step (w w' : Order.World R) :
    reachable w -> step w w' -> reachable w'.
End Transitions.

End System.

(** * The product service: the open routes, the page cache, the ledger *)

Module Catalog.

(** [get_product], the body of [GET /products/{product_id}]; the route
    has no dependency. *)
Definition get_product (product_id : Z) (w : Product.World)
    : outcome Product.product_row * Product.World :=
  match Product.products w !! product_id with
  | None => (Raise (HTTPException 404 (Some "Product not found")), w)
  | Some product => (Return product, w)
  end.

(** The product database together with the Redis instance.  The key
    [f"products:{page}:{page_size}"] is the pair of its two numbers; an
    entry holds the rows that were serialised and the time at which it
    expires. *)
Record World := {
  shop : Product.World;
  redis : gmap (Z * Z) (list Product.product_row * Z)
}.

(** [redis.get] at time [now], in seconds. *)
Definition redis_get (now : Z) (key : Z * Z) (w : World)
    : option (list Product.product_row) :=
  match redis w !! key with
  | Some (data, expires) => if now <? expires then Some data else None
  | None => None
  end.

(** [redis.set(key, value, ex=30)] at time [now]. *)
Definition redis_set (now : Z) (key : Z * Z)
    (data : list Product.product_row) (w : World) : World :=
  {| shop := shop w; redis := <[key := (data, now + 30)]> (redis w) |}.

(** The order of [ORDER BY id]. *)
Definition id_le (a b : Product.product_row) : Prop :=
  Product.id a <= Product.id b.

#[global] Instance id_le_dec : RelDecision id_le.
Proof. intros a b. unfold id_le. apply _. Defined.

(** [SELECT * FROM product_service.products ORDER BY id]. *)
Definition rows_by_id (w : Product.World) : list Product.product_row :=
  merge_sort id_le (snd <$> map_to_list (Product.products w)).

(** [... LIMIT $1 OFFSET $2]. *)
Definition select_page (limit offset : Z) (w : Product.World)
    : list Product.product_row :=
  take (Z.to_nat limit) (drop (Z.to_nat offset) (rows_by_id w)).

(** [list_products], the body of [GET /products]. *)
Definition list_products (page page_size : Z) (now : Z) (w : World)
    : outcome (list Product.product_row) * World :=
  let offset := (page - 1) * page_size in
  let cache_key := (page, page_size) in
  match redis_get now cache_key w with
  | Some cached => (Return cached, w)
  | None =>
      let data := select_page page_size offset (shop w) in
      (Return data, redis_set now cache_key data w)
  end.


(** [GET /products] for the pages 1 to [k] of one page size, one
    request after the other at time [now]: the rows of the answers, in the
    order of the requests. *)
Fixpoint read_pages (page_size now : Z) (k : nat) (w : World)
    : list Product.product_row * World :=
  match k with
  | O => ([], w)
  | S k' =>
      let '(rows, w1) := read_pages page_size now k' w in
      match list_products (Z.of_nat (S k')) page_size now w1 with
      | (Return page, w2) => (rows ++ page, w2)
      | (Raise _, w2) => (rows, w2)
      end
  end.

(** A write of the product service, seen from the world with the cache:
    none of them touches Redis. *)
Definition write (f : Product.World -> Product.World) (w : World) : World :=
  {| shop := f (shop w); redis := redis w |}.

(** What the 'inventory' exchange says was reserved of one product. *)
Fixpoint reserved_total (product_id : Z) (events : list event) : Z :=
  match events with
  | [] => 0
  | InventoryReserved p n :: rest =>
      (if p =? product_id then n else 0) + reserved_total product_id rest
  | OrderCreated _ _ _ :: rest => reserved_total product_id rest
  end.

(** A sequence of calls of the reservation handler, one after the other,
    whatever each of them answers. *)
Fixpoint reserve_all {cols : Columns} (calls : list (Z * Z * bus_outcome))
    (w : Product.World) : Product.World :=
  match calls with
  | [] => w
  | (product_id, quantity, b) :: rest =>
      reserve_all rest (snd (Product.reserve_inventory product_id quantity b w))
  end.


(** Three products for the examples. *)
Definition three : Product.World :=
  {| Product.products :=
       <[3 := {| Product.id := 3; Product.name := "gasket"; Product.quantity := 7 |}]>
         (<[1 := {| Product.id := 1; Product.name := "anvil"; Product.quantity := 2 |}]>
            {[ 2 := {| Product.id := 2; Product.name := "bolt"; Product.quantity := 90 |} ]});
     Product.next_id := 4;
     Product.inventory := [];
     Product.log := [] |}.

Definition cold (w : Product.World) : World := {| shop := w; redis := ∅ |}.

End Catalog.

(** * The user service *)

Module User.

Record user_row := {
  id : Z;
  username : string;
  password : string;          (* the hash *)
  created_at : option Z
}.

(** The table [user_service.users].  [register] is its only insert and
    looks the username up first, and every other statement selects or
    deletes by username, so the rows are kept under their username. *)
Record World := { users : gmap string user_row; next_id : Z }.

(** [JWT_SECRET], [JWT_ALGORITHM] and [JWT_EXPIRE_DAYS] of the process. *)
Record config := {
  jwt_secret : option string;
  jwt_algorithm : option string;
  jwt_expire_days : Z
}.

(** [not JWT_SECRET or not JWT_ALGORITHM]: unset or empty. *)
Definition unset (v : option string) : bool :=
  match v with
  | None => true
  | Some s => String.eqb s ""
  end.

(** What the two other libraries of the service decide: [passlib] (the
    hash is salted, the salt is an argument here) and the signing half of
    the JWT library, called with a subject and an expiry. *)
Class IdentityLib := {
  pwd_hash : string -> string -> string;
  pwd_verify : string -> string -> bool;
  jwt_encode : string -> Z -> outcome string
}.

Inductive done :=
| Running                                  (* {"message": "User Service is running"} *)
| Debug (token_received : bool) (token_length : nat)
        (jwt_secret_set jwt_algorithm_set : bool)
| Registered                               (* {"msg": "User registered"} *)
| AccessToken (access_token : string)      (* ..., "token_type": "bearer" *)
| Profile (id : Z) (username : string) (created_at : option Z)
| UserDeleted (username : string).         (* {"msg": "User '<username>' deleted"} *)

Section Service.
Context `{AuthLib} `{IdentityLib}.
Variable cfg : config.

(** [create_access_token({"sub": username})] at time [utcnow], in
    seconds. *)
Definition create_access_token (sub : string) (utcnow : Z) : outcome string :=
  jwt_encode sub (utcnow + jwt_expire_days cfg * 86400).

Definition get_user (username : string) (w : World) : option user_row :=
  users w !! username.

(** [authenticate_user]: the row, or [False]. *)
Definition authenticate_user (username password : string) (w : World)
    : option user_row :=
  match get_user username w with
  | None => None
  | Some user =>
      if pwd_verify password (User.password user) then Some user else None
  end.

(** [get_current_user] of the user service: after the bearer dependency,
    the configuration test, the decoding, and the look-up of the
    subject. *)
Definition get_current_user (request : Request) (w : World)
    : outcome user_row :=
  match bearer_token (authorization request) with
  | None => Raise not_authenticated
  | Some token =>
      if unset (jwt_secret cfg) || unset (jwt_algorithm cfg)
      then Raise (HTTPException 500 (Some "JWT configuration missing"))
      else
        match jwt_decode token with
        | JWTError _ => Raise credentials_exception
        | Payload None => Raise credentials_exception
        | Payload (Some username) =>
            match get_user username w with
            | None => Raise credentials_exception
            | Some user => Return user
            end
        end
  end.

(** [debug_token], behind the bearer dependency alone. *)
Definition debug_token (request : Request) : outcome done :=
  match bearer_token (authorization request) with
  | None => Raise not_authenticated
  | Some token =>
      Return (Debug (negb (String.eqb token "")) (String.length token)
                (negb (unset (jwt_secret cfg)))
                (negb (unset (jwt_algorithm cfg))))
  end.

(** [register]; the identifier and the creation time of the new row come
    from the database. *)
Definition register (username password salt : string) (stamp : option Z)
    (w : World) : outcome done * World :=
  match users w !! username with
  | Some _ => (Raise (HTTPException 400 (Some "User already exists")), w)
  | None =>
      (Return Registered,
       {| users :=
            <[username := {| id := next_id w; username := username;
                             password := pwd_hash salt password;
                             created_at := stamp |}]> (users w);
          next_id := next_id w + 1 |})
  end.

(** [login], the body of [POST /token]. *)
Definition login (username password : string) (utcnow : Z) (w : World)
    : outcome done * World :=
  match authenticate_user username password w with
  | None => (Raise (HTTPException 400 (Some "Incorrect username or password")), w)
  | Some user =>
      match create_access_token (User.username user) utcnow with
      | Return token => (Return (AccessToken token), w)
      | Raise exc => (Raise exc, w)
      end
  end.

Definition profile (current_user : user_row) : done :=
  Profile (User.id current_user) (User.username current_user)
    (User.created_at current_user).

(** [delete_user], the body of [DELETE /users/{username}]. *)
Definition delete_user (username : string) (current_user : user_row)
    (w : World) : outcome done * World :=
  match users w !! username with
  | None => (Raise (HTTPException 404 (Some "User not found")), w)
  | Some _ =>
      (Return (UserDeleted username),
       {| users := delete username (users w); next_id := next_id w |})
  end.

(** The routes; form fields and path parameters arrive validated. *)
Inductive call :=
| GetRoot
| GetDebugToken
| PostRegister (username password salt : string) (stamp : option Z)
| PostToken (username password : string) (utcnow : Z)
| GetProfile
| DeleteUsers (username : string).

Definition serve (c : call) (request : Request) (w : World)
    : reply done * World :=
  match c with
  | GetRoot => (respond (Return Running), w)
  | GetDebugToken => (respond (debug_token request), w)
  | PostRegister username password salt stamp =>
      let '(o, w') := register username password salt stamp w in (respond o, w')
  | PostToken username password utcnow =>
      let '(o, w') := login username password utcnow w in (respond o, w')
  | GetProfile =>
      match get_current_user request w with
      | Raise exc => (respond (Raise exc), w)
      | Return current_user => (respond (Return (profile current_user)), w)
      end
  | DeleteUsers username =>
      match get_current_user request w with
      | Raise exc => (respond (Raise exc), w)
      | Return current_user =>
          let '(o, w') := delete_user username current_user w in (respond o, w')
      end
  end.
End Service.

(** A toy identity library: the hash is the salt, a separator and the
    password reversed; a token is the subject with a suffix. *)
Definition toy_hash (salt password : string) : string :=
  (salt ++ "$" ++ String.rev password)%string.

Definition toy_verify (password hashed : string) : bool :=
  match String.index 0 "$" hashed with
  | Some i =>
      String.eqb (String.substring (S i) (String.length hashed - S i) hashed)
                 (String.rev password)
  | None => false
  end.

Definition toy_identity : IdentityLib :=
  {| pwd_hash := toy_hash;
     pwd_verify := toy_verify;
     jwt_encode := fun sub exp => Return (sub ++ ".jwt")%string |}.

Definition configured : config :=
  {| jwt_secret := Some "s3cret"; jwt_algorithm := Some "HS256";
     jwt_expire_days := 30 |}.

Definition unconfigured : config :=
  {| jwt_secret := None; jwt_algorithm := Some "HS256"; jwt_expire_days := 30 |}.

Definition nobody : World := {| users := ∅; next_id := 1 |}.

(** alice and bob registered, in that order. *)
Definition two_users : World :=
  {| users :=
       <["bob" := {| id := 2; username := "bob";
                     password := toy_hash "pepper" "hunter2";
                     created_at := Some 1700000060 |}]>
         {[ "alice" := {| id := 1; username := "alice";
                          password := toy_hash "salt" "secret";
                          created_at := Some 1700000000 |} ]};
     next_id := 3 |}.

End User.

(** * Observability *)

Module Observability.

(** A handler of the root logger: a [logging.StreamHandler] (with the
    JSON formatter or not), or a handler of another class. *)
Inductive handler :=
| StreamHandler (json : bool)
| OtherHandler (name : string).

Definition is_stream (h : handler) : bool :=
  match h with
  | StreamHandler _ => true
  | OtherHandler _ => false
  end.

Inductive level := WARNING | INFO.

Inductive processor :=
| BatchOTLP (endpoint : string)
| SimpleConsole.

(** What a call of the module has done so far, with the module-level
    flag.  [providers] are the calls of [trace.set_tracer_provider],
    [instrumented] those of [FastAPIInstrumentor.instrument_app] and
    [metrics] those of [Instrumentator().instrument(app).expose(app)],
    oldest first. *)
Record World := {
  handlers : list handler;
  root_level : level;
  providers : list (string * processor);
  instrumented : list string;
  metrics : list string;
  initialized : bool
}.

Definition _setup_json_logging (w : World) : World :=
  {| handlers :=
       (if existsb is_stream (handlers w) then [] else handlers w)
       ++ [StreamHandler true];
     root_level := INFO;
     providers := providers w; instrumented := instrumented w;
     metrics := metrics w; initialized := initialized w |}.

(** [otlp_endpoint] is [OTEL_EXPORTER_OTLP_ENDPOINT]. *)
Definition _setup_tracing (service_name : string)
    (otlp_endpoint : option string) (w : World) : World :=
  {| handlers := handlers w; root_level := root_level w;
     providers :=
       providers w
       ++ [(service_name,
            match otlp_endpoint with
            | Some endpoint =>
                if String.eqb endpoint "" then SimpleConsole
                else BatchOTLP endpoint
            | None => SimpleConsole
            end)];
     instrumented := instrumented w; metrics := metrics w;
     initialized := initialized w |}.

Definition instrument_app (app : string) (w : World) : World :=
  {| handlers := handlers w; root_level := root_level w;
     providers := providers w; instrumented := instrumented w ++ [app];
     metrics := metrics w; initialized := initialized w |}.

Definition _setup_metrics (app : string) (w : World) : World :=
  {| handlers := handlers w; root_level := root_level w;
     providers := providers w; instrumented := instrumented w;
     metrics := metrics w ++ [app]; initialized := initialized w |}.

Definition mark (w : World) : World :=
  {| handlers := handlers w; root_level := root_level w;
     providers := providers w; instrumented := instrumented w;
     metrics := metrics w; initialized := true |}.

Definition init_observability (app service_name : string)
    (otlp_endpoint : option string) (w : World) : World :=
  if initialized w then w
  else
    mark (_setup_metrics app
            (instrument_app app
               (_setup_tracing service_name otlp_endpoint
                  (_setup_json_logging w)))).

(** A process in which nothing was set up, with the handlers it has. *)
Definition untouched (hs : list handler) : World :=
  {| handlers := hs; root_level := WARNING; providers := [];
     instrumented := []; metrics := []; initialized := false |}.

End Observability.

(** * The two consumers *)

Module Consumer.

(** One delivery of the broker: its tag, whether the [try] block of the
    callback gets through (the body decodes, parses and is logged), and
    whether [basic_ack] gets through. *)
Record delivery := { tag : Z; processed : bool; acked : bool }.

Record World := {
  acks : list Z;            (* basic_ack, oldest first *)
  log : list string;        (* logging.warning *)
  consuming : bool          (* the thread is still in start_consuming *)
}.

(** [on_message] of the order service, up to the acknowledgement. *)
Definition on_message (d : delivery) (w : World) : World :=
  {| acks := acks w;
     log := if processed d then log w
            else log w ++ ["Could not process inventory message"];
     consuming := consuming w |}.

(** [_on_msg] of the product service: [except Exception: pass]. *)
Definition _on_msg (d : delivery) (w : World) : World := w.

(** [start_consuming] over the deliveries to come: the callback, then the
    acknowledgement; an exception of [basic_ack] leaves the callback and
    the loop, and reaches the [except] around the whole consumer. *)
Fixpoint start_consuming (callback : delivery -> World -> World)
    (failed : string) (deliveries : list delivery) (w : World) : World :=
  match deliveries with
  | [] => w
  | d :: rest =>
      let w1 := callback d w in
      if acked d
      then start_consuming callback failed rest
             {| acks := acks w1 ++ [tag d]; log := log w1;
                consuming := consuming w1 |}
      else {| acks := acks w1; log := log w1 ++ [failed]; consuming := false |}
  end.

(** [consume_inventory_events] of the order service; [connected] tells
    whether connecting, declaring and binding got through. *)
Definition consume_inventory_events (connected : bool)
    (deliveries : list delivery) (w : World) : World :=
  if connected
  then start_consuming on_message "Inventory consumer failed" deliveries
         {| acks := acks w; log := log w; consuming := true |}
  else {| acks := acks w; log := log w ++ ["Inventory consumer failed"];
          consuming := false |}.

(** [_consume_orders] of the product service. *)
Definition _consume_orders (connected : bool)
    (deliveries : list delivery) (w : World) : World :=
  if connected
  then start_consuming _on_msg "RabbitMQ consumer failed" deliveries
         {| acks := acks w; log := log w; consuming := true |}
  else {| acks := acks w; log := log w ++ ["RabbitMQ consumer failed"];
          consuming := false |}.

Definition idle : World := {| acks := []; log := []; consuming := false |}.

End Consumer.

(** * Small vocabulary of the further properties *)

(** The time a list of delays adds up to. *)
Definition total_sleep (delays : list Q) : Q := foldr Qplus 0%Q delays.

(** A toy token library with one more token, whose subject is the empty
    string. *)
Definition blank_lib : AuthLib :=
  {| bearer_token := System.toy_bearer_token;
     jwt_decode := fun token =>
       if String.eqb token "blank.jwt" then Payload (Some "")
       else System.toy_jwt_decode token |}.

(** A request without an Authorization header. *)
Definition anonymous : Request :=
  {| authorization := None; query := ∅; form := ∅ |}.

(** alice has order 1, bob has order 2. *)
Definition bobs_order : Order.order_row :=
  {| Order.id := 2; Order.productname := "bolt"; Order.product_id := 2;
     Order.quantity := 10; Order.username := "bob";
     Order.status := "CONFIRMED" |}.

Definition two_orders : Order.World unit :=
  {| Order.orders := <[2 := bobs_order]> {[ 1 := System.alices_order ]};
     Order.next_id := 3; Order.remote := tt; Order.posts := [];
     Order.slept := []; Order.orders_exchange := []; Order.log := [] |}.


(** * The reservation server *)

(** The closed examples below run on [INTEGER] columns. *)
#[local] Existing Instance System.int4.

Section ReservationServer.
Import Product.
Context {cols : Columns}.


Lemma reserve_short (w : World) (product_id n : Z) (b : bus_outcome)
    (row : product_row) :
  products w !! product_id = Some row ->
  quantity row < n ->
  reserve_inventory product_id n b w
  = (Raise (HTTPException 409 (Some "Insufficient stock")), w).
Proof.
  intros Hrow Hlt. unfold reserve_inventory. rewrite Hrow.
  destruct (Z.ltb_spec (quantity row) n); [done | lia].
Qed.

Lemma update_accepts_nonnegative (stock n : Z) :
  0 <= n -> update_refused stock n = false.
Proof.
  intros Hn. unfold update_refused.
  destruct (Z.ltb_spec n 0); [lia | reflexivity].
Qed.

Lemma reserve_overflow (w : World) (product_id n : Z) (b : bus_outcome)
    (row : product_row) :
  products w !! product_id = Some row ->
  n <= quantity row ->
  update_refused (quantity row) n = true ->
  reserve_inventory product_id n b w = (Raise PostgresError, w).
Proof.
  intros Hrow Hle Hrefused. unfold reserve_inventory. rewrite Hrow.
  destruct (Z.ltb_spec (quantity row) n); [lia |]. by rewrite Hrefused.
Qed.

Lemma reserve_enough (w : World) (product_id n : Z) (b : bus_outcome)
    (row : product_row) :
  products w !! product_id = Some row ->
  n <= quantity row ->
  update_refused (quantity row) n = false ->
  exists w',
    reserve_inventory product_id n b w = (Return Reserved, w')
    /\ products w' !! product_id = Some (set_quantity (quantity row - n) row)
    /\ stock w' product_id = Some (quantity row - n)
    /\ (forall other, other <> product_id ->
          products w' !! other = products w !! other)
    /\ inventory w'
       = (if sent_on b then inventory w ++ [InventoryReserved product_id n]
          else inventory w)
    /\ log w'
       = match b with
         | BusOk => log w
         | BusRaises _ => log w ++ ["Could not publish inventory event"]
         end.
Proof.
  intros Hrow Hle Hfits. unfold reserve_inventory. rewrite Hrow.
  destruct (Z.ltb_spec (quantity row) n) as [Hlt | _]; [lia |].
  rewrite Hfits.
  eexists. split; [reflexivity |].
  unfold stock. cbn.
  rewrite lookup_alter_eq, Hrow. cbn.
  repeat split; try done.
  intros other Hne. by rewrite lookup_alter_ne.
Qed.


(** C10, as the code has it.  With a quantity [n] that is zero or
    negative, the handler compares the stock [q] with [n] and then runs
    the [UPDATE].  When [q < n], which takes a negative stock, the call is
    answered 409 and nothing changes.  When [n <= q], which every
    non-negative stock satisfies, and the [UPDATE] stays within the
    column (always for zero; for a negative [n] when [n] and [q - n] fit
    the column), the call succeeds and sets the stock to [q - n], so zero
    leaves it unchanged and a negative quantity makes it strictly larger.
    When [n <= q] and a negative [n] does not fit the column or takes
    [q - n] out of it, the statement raises, the answer is 500 and
    nothing changes. *)
Theorem reserve_nonpositive_quantity (w : World) (product_id n : Z)
    (b : bus_outcome) (row : product_row) :
  products w !! product_id = Some row ->
  n <= 0 ->
  (n <= quantity row ->
   (n < 0 -> quantity_fits n = true /\ quantity_fits (quantity row - n) = true) ->
     exists w',
       reserve_inventory product_id n b w = (Return Reserved, w')
       /\ stock w' product_id = Some (quantity row - n)
       /\ (n = 0 -> stock w' product_id = stock w product_id)
       /\ (n < 0 -> exists q', stock w' product_id = Some q' /\ quantity row < q'))
  /\ (0 <= quantity row -> n <= quantity row)
  /\ (quantity row < n ->
        reserve_inventory product_id n b w
        = (Raise (HTTPException 409 (Some "Insufficient stock")), w))
  /\ (n <= quantity row ->
      n < 0 ->
      quantity_fits n = false \/ quantity_fits (quantity row - n) = false ->
        reserve_inventory product_id n b w = (Raise PostgresError, w)
        /\ respond (@Raise done PostgresError) = Reply 500 InternalServerError).
Proof.
  intros Hrow Hn. split; [| split; [| split]].
  - intros Hle Hfits.
    destruct (reserve_enough w product_id n b row Hrow Hle)
      as (w' & Hrun & _ & Hstock & _).
    { unfold update_refused. destruct (Z.ltb_spec n 0) as [Hneg | _]; [| done].
      destruct (Hfits Hneg) as [-> ->]. reflexivity. }
    exists w'. split; [exact Hrun |]. split; [exact Hstock |]. split.
    + intros ->. rewrite Hstock. unfold stock. rewrite Hrow. cbn. f_equal. lia.
    + intros Hneg. exists (quantity row - n). split; [exact Hstock | lia].
  - lia.
  - by apply reserve_short.
  - intros Hle Hneg Hout. split; [| reflexivity].
    apply (reserve_overflow w product_id n b row Hrow Hle).
    unfold update_refused. destruct (Z.ltb_spec n 0); [| lia].
    destruct Hout as [-> | ->]; [reflexivity |].
    by destruct (quantity_fits n).
Qed.
End ReservationServer.

Section ReservationExamples.
Import Product.


Lemma reserve_nonpositive_quantity_example :
  (exists w', reserve_inventory 42 0 BusOk System.shelf = (Return Reserved, w')
              /\ stock w' 42 = Some 5)
  /\ (exists w', reserve_inventory 42 (-3) BusOk System.shelf = (Return Reserved, w')
                 /\ stock w' 42 = Some 8)
  /\ reserve_inventory 42 (-2147483648) BusOk System.shelf
     = (Raise PostgresError, System.shelf).
Proof.
  split; [| split].
  - destruct (reserve_nonpositive_quantity System.shelf 42 0 BusOk _ eq_refl)
      as (Hok & _); [lia |].
    destruct Hok as (w' & Hrun & Hstock & _); [cbn; lia | lia |].
    exists w'. split; [exact Hrun | exact Hstock].
  - destruct (reserve_nonpositive_quantity System.shelf 42 (-3) BusOk _ eq_refl)
      as (Hok & _); [lia |].
    destruct Hok as (w' & Hrun & Hstock & _); [cbn; lia | by split |].
    exists w'. split; [exact Hrun | exact Hstock].
  - destruct (reserve_nonpositive_quantity System.shelf 42 (-2147483648) BusOk _
                eq_refl) as (_ & _ & _ & Hout); [lia |].
    destruct Hout as [Hrun _]; [cbn; lia | lia | by right |].
    exact Hrun.
Defined.

(** C10 as stated does not hold for every existing product.  Product 1
    was added with a quantity of [-5], and reserving [-2] of it is
    answered 409, because [-5 < -2]; the stock stays at [-5].  And with
    five in stock, reserving [-9223372036854775808] makes the [UPDATE]
    raise, on an [INTEGER] column (the argument does not fit) as on a
    [BIGINT] column (the sum does not fit); the answer is 500 and the
    stock stays at five. *)
Lemma reserve_nonpositive_quantity_refused :
  (stock System.overdrawn_shelf 1 = Some (-5)
   /\ reserve_inventory 1 (-2) BusOk System.overdrawn_shelf
      = (Raise (HTTPException 409 (Some "Insufficient stock")),
         System.overdrawn_shelf))
  /\ (stock System.shelf 42 = Some 5
      /\ reserve_inventory (cols := System.int4) 42 (-9223372036854775808) BusOk
           System.shelf
         = (Raise PostgresError, System.shelf)
      /\ reserve_inventory (cols := System.int8) 42 (-9223372036854775808) BusOk
           System.shelf
         = (Raise PostgresError, System.shelf))
  /\ ~ (forall (cols : Columns) (w : World) (product_id n : Z) (b : bus_outcome)
               (row : product_row),
          products w !! product_id = Some row ->
          n <= 0 ->
          exists w',
            reserve_inventory product_id n b w = (Return Reserved, w')
            /\ stock w' product_id = Some (quantity row - n)).
Proof.
  split; [split; reflexivity |]. split; [repeat split; reflexivity |].
  intros Hall.
  destruct (Hall System.int8 System.overdrawn_shelf 1 (-2) BusOk
              {| id := 1; name := "voucher"; quantity := -5 |})
    as (w' & Hrun & _); [reflexivity | lia |].
  vm_compute in Hrun. discriminate Hrun.
Qed.
End ReservationExamples.

(** * The reservation client *)

Section ReservationClient.
Import Order.
Context {R : Type} (post : Request -> R -> attempt * R).

Lemma try_body_rejection (code : Z) (detail : option (option string)) :
  code = 404 \/ code = 409 ->
  exists exc, try_body (Answers code detail) = Raises exc.
Proof.
  intros [-> | ->]; destruct detail as [d |]; cbn; eauto.
Qed.

Lemma try_body_fault (code : Z) (detail : option (option string)) :
  500 <= code <= 599 ->
  try_body (Answers code detail) = FallsThrough.
Proof.
  intros Hcode. unfold try_body.
  destruct (Z.eqb_spec code 200); [lia |].
  destruct (Z.eqb_spec code 404); [lia |].
  destruct (Z.eqb_spec code 409); [lia |].
  reflexivity.
Qed.

(** The loop when the [try] block raises at every attempt: every delay
    of the schedule is slept, one request goes out per delay, and the
    loop ends in the 502. *)
Lemma reserve_loop_raising (request : Request) :
  (forall r, exists a r' exc, post request r = (a, r') /\ try_body a = Raises exc) ->
  forall (delays : list Q) (last_exc : option exn) (w : World R),
    delays <> [] \/ last_exc <> None ->
    exists w',
      reserve_loop post delays last_exc request w
      = (Raise (HTTPException 502 (Some "Inventory service unavailable")), w')
      /\ posts w' = posts w ++ replicate (length delays) request
      /\ slept w' = slept w ++ delays
      /\ orders w' = orders w /\ next_id w' = next_id w
      /\ orders_exchange w' = orders_exchange w /\ log w' = log w.
Proof.
  intros Hraise delays.
  induction delays as [| delay rest IH]; intros last_exc w Hsome.
  - destruct last_exc as [exc |]; [| destruct Hsome; congruence].
    exists w. cbn. by rewrite !app_nil_r.
  - cbn [reserve_loop].
    destruct (Hraise (remote w)) as (a & r' & exc & Hpost & Hbody).
    rewrite Hpost, Hbody.
    destruct (IH (Some exc) (sleep delay (sent request r' w)))
      as (w' & Hrun & Hposts & Hslept & Horders & Hnext & Hex & Hlog);
      [right; congruence |].
    exists w'. split; [exact Hrun |].
    rewrite Hposts, Hslept. cbn.
    rewrite <- !app_assoc. by repeat split.
Qed.

(** The loop when every attempt is answered with a status the [try]
    block has no branch for: nothing is slept, [last_exc] stays as it
    was, and the loop runs off its end. *)
Lemma reserve_loop_falling (request : Request) :
  (forall r, exists a r', post request r = (a, r') /\ try_body a = FallsThrough) ->
  forall (delays : list Q) (w : World R),
    exists w',
      reserve_loop post delays None request w = (Return tt, w')
      /\ posts w' = posts w ++ replicate (length delays) request
      /\ slept w' = slept w
      /\ orders w' = orders w /\ next_id w' = next_id w
      /\ orders_exchange w' = orders_exchange w /\ log w' = log w.
Proof.
  intros Hfall delays.
  induction delays as [| delay rest IH]; intros w.
  - exists w. cbn. by rewrite app_nil_r.
  - cbn [reserve_loop].
    destruct (Hfall (remote w)) as (a & r' & Hpost & Hbody).
    rewrite Hpost, Hbody.
    destruct (IH (sent request r' w))
      as (w' & Hrun & Hposts & Hslept & Horders & Hnext & Hex & Hlog).
    exists w'. split; [exact Hrun |].
    rewrite Hposts, Hslept. cbn.
    rewrite <- !app_assoc. by repeat split.
Qed.

(** C1 (what the code does).  A remote end that answers every attempt
    with 404 or 409: the [HTTPException] raised for it is caught by the
    [except Exception] of the loop, so the client sleeps the whole
    schedule, sends three requests and ends in 502; the order placement
    fails with that 502, not with the 404 or 409. *)
Theorem rejection_is_retried (productname : string) (product_id n : Z)
    (request : Request) (user : string) (e : env) (w : World R) :
  System.always_rejects post ->
  exists w',
    reserve_inventory post request product_id n w
    = (Raise (HTTPException 502 (Some "Inventory service unavailable")), w')
    /\ create_order post productname product_id n request user e w
       = (Raise (HTTPException 502 (Some "Inventory service unavailable")), w')
    /\ posts w' = posts w ++ replicate 3 (outbound request product_id n)
    /\ slept w' = slept w ++ [0.2; 0.5; 1.0]%Q
    /\ orders w' = orders w.
Proof.
  intros Hrej.
  destruct (reserve_loop_raising (outbound request product_id n)) with
    (delays := backoff) (last_exc := @None exn) (w := w)
    as (w' & Hrun & Hposts & Hslept & Horders & _).
  - intros r. destruct (Hrej (outbound request product_id n) r)
      as (code & detail & r' & Hpost & Hcode).
    destruct (try_body_rejection code detail Hcode) as (exc & Hbody).
    by exists (Answers code detail), r', exc.
  - left. discriminate.
  - exists w'. unfold create_order, reserve_inventory.
    rewrite Hrun. by repeat split.
Qed.
End ReservationClient.

Lemma rejection_is_retried_example :
  System.always_rejects
    (System.constant_post (Order.Answers 404 (Some (Some "Product not found"))))
  /\ exists w',
       Order.create_order
         (System.constant_post (Order.Answers 404 (Some (Some "Product not found"))))
         "widget" 99 1 (System.bearer "alice.jwt") "alice"
         {| Order.insert_ok := true; Order.bus := BusOk |} (System.fresh tt)
       = (Raise (HTTPException 502 (Some "Inventory service unavailable")), w')
       /\ Order.slept w' = [0.2; 0.5; 1.0]%Q
       /\ Order.orders w' = ∅.
Proof.
  assert (Hrej : System.always_rejects
            (System.constant_post (Order.Answers 404 (Some (Some "Product not found"))))).
  { intros request r. exists 404, (Some (Some "Product not found")), r.
    split; [reflexivity | by left]. }
  split; [exact Hrej |].
  destruct (rejection_is_retried _ "widget" 99 1 (System.bearer "alice.jwt") "alice"
              {| Order.insert_ok := true; Order.bus := BusOk |} (System.fresh tt) Hrej)
    as (w' & _ & Hrun & _ & Hslept & Horders).
  exists w'. split; [exact Hrun |]. split; [exact Hslept | exact Horders].
Defined.

(** The same outcome from the reservation handler itself: product 99 is
    not on the shelf, each of the three attempts is answered 404, and the
    caller of [create_order] gets the 502. *)
Lemma missing_product_ends_in_502 :
  exists w',
    Order.create_order (System.handler_post BusOk) "widget" 99 1
      (System.bearer "alice.jwt") "alice"
      {| Order.insert_ok := true; Order.bus := BusOk |}
      (System.fresh System.shelf)
    = (Raise (HTTPException 502 (Some "Inventory service unavailable")), w')
    /\ length (Order.posts w') = 3%nat
    /\ Order.slept w' = [0.2; 0.5; 1.0]%Q
    /\ Order.remote w' = System.shelf.
Proof. eexists. vm_compute. repeat split. Qed.

(** A rejection is not final for the loop either: answered 404 and then
    200, the client sleeps 0.2s, asks again and returns as after a
    reservation. *)
Lemma rejection_then_success :
  exists w',
    Order.reserve_inventory System.scripted_post (System.bearer "alice.jwt") 42 3
      (System.fresh [Order.Answers 404 (Some (Some "Product not found"));
                     Order.Answers 200 (Some None)])
    = (Return tt, w')
    /\ length (Order.posts w') = 2%nat
    /\ Order.slept w' = [0.2]%Q.
Proof. eexists. vm_compute. repeat split. Qed.

(** One exception is enough for the 502: a timeout followed by two 503
    answers ends in 502 after a single sleep. *)
Lemma timeout_then_server_errors :
  exists w',
    Order.reserve_inventory System.scripted_post (System.bearer "alice.jwt") 42 3
      (System.fresh [Order.Fails ReadTimeout; Order.Answers 503 None;
                     Order.Answers 503 None])
    = (Raise (HTTPException 502 (Some "Inventory service unavailable")), w')
    /\ length (Order.posts w') = 3%nat
    /\ Order.slept w' = [0.2]%Q.
Proof. eexists. vm_compute. repeat split. Qed.

(** * The orchestrator *)

Section Orchestrator.
Import Order.
Context {R : Type} (post : Request -> R -> attempt * R).

Lemma insert_order_fresh (productname : string) (product_id n : Z)
    (user : string) (w : World R) :
  orders w !! next_id w = None ->
  exists order w',
    insert_order productname product_id n user true w = (Return order, w')
    /\ order = {| id := next_id w; productname := productname;
                  product_id := product_id; quantity := n;
                  username := user; status := "CONFIRMED" |}
    /\ orders w' = <[next_id w := order]> (orders w)
    /\ remote w' = remote w /\ posts w' = posts w /\ slept w' = slept w
    /\ orders_exchange w' = orders_exchange w /\ log w' = log w.
Proof.
  intros Hfresh. unfold insert_order. cbn. rewrite Hfresh.
  eexists _, _. by repeat split.
Qed.

Lemma insert_order_raises (productname : string) (product_id n : Z)
    (user : string) (ok : bool) (w w' : World R) (exc : exn) :
  insert_order productname product_id n user ok w = (Raise exc, w') ->
  exc = PostgresError /\ w' = w.
Proof.
  unfold insert_order. destruct ok; cbn.
  - destruct (orders w !! next_id w); intros [= <- <-]; done.
  - intros [= <- <-]; done.
Qed.

(** The part of C2 that the loop does implement: when every attempt
    raises in the transport (timeout, connection error), the schedule is
    slept, three requests go out, the placement ends in 502 and the
    table of orders is as before. *)
Lemma transport_failure_is_unavailable (productname : string)
    (product_id n : Z) (request : Request) (user : string) (e : env)
    (w : World R) :
  System.always_fails post ->
  exists w',
    create_order post productname product_id n request user e w
    = (Raise (HTTPException 502 (Some "Inventory service unavailable")), w')
    /\ posts w' = posts w ++ replicate 3 (outbound request product_id n)
    /\ slept w' = slept w ++ [0.2; 0.5; 1.0]%Q
    /\ orders w' = orders w.
Proof.
  intros Hfail.
  destruct (reserve_loop_raising post (outbound request product_id n)) with
    (delays := backoff) (last_exc := @None exn) (w := w)
    as (w' & Hrun & Hposts & Hslept & Horders & _).
  - intros r. destruct (Hfail (outbound request product_id n) r)
      as (err & r' & Hpost).
    by exists (Fails err), r', (HttpxError err).
  - left. discriminate.
  - exists w'. unfold create_order, reserve_inventory.
    rewrite Hrun. by repeat split.
Qed.

(** C2 (what the code does).  A remote end that answers every attempt
    with a 5xx status: the [try] block has no branch for it and raises
    nothing, so no delay is slept, [last_exc] is still [None] after the
    third attempt, [reserve_inventory] returns as after a reservation,
    and the order is inserted and reported as placed. *)
Theorem server_error_places_the_order (productname : string)
    (product_id n : Z) (request : Request) (user : string)
    (b : bus_outcome) (w : World R) :
  System.always_faults post ->
  orders w !! next_id w = None ->
  exists order w',
    create_order post productname product_id n request user
      {| insert_ok := true; bus := b |} w
    = (Return (OrderPlaced order), w')
    /\ posts w' = posts w ++ replicate 3 (outbound request product_id n)
    /\ slept w' = slept w
    /\ orders w' = <[next_id w := order]> (orders w)
    /\ username order = user /\ status order = "CONFIRMED".
Proof.
  intros Hfault Hfresh.
  destruct (reserve_loop_falling post (outbound request product_id n)) with
    (delays := backoff) (w := w)
    as (w1 & Hrun & Hposts & Hslept & Horders & Hnext & _).
  - intros r. destruct (Hfault (outbound request product_id n) r)
      as (code & detail & r' & Hpost & Hcode).
    exists (Answers code detail), r'.
    split; [exact Hpost | by apply try_body_fault].
  - destruct (insert_order_fresh productname product_id n user w1)
      as (order & w2 & Hins & Horder & Hrows & _ & Hposts2 & Hslept2 & _).
    { by rewrite Horders, Hnext. }
    exists order, (publish_order_event user product_id n b w2).
    unfold create_order, reserve_inventory. rewrite Hrun. cbn [insert_ok bus].
    rewrite Hins. cbn.
    rewrite Hposts2, Hposts, Hslept2, Hslept, Hrows, Horders, Hnext, Horder.
    by repeat split.
Qed.
End Orchestrator.

Lemma server_error_places_the_order_example :
  System.always_faults (System.constant_post (Order.Answers 500 None))
  /\ exists order w',
       Order.create_order (System.constant_post (Order.Answers 500 None))
         "widget" 42 2 (System.bearer "alice.jwt") "alice"
         {| Order.insert_ok := true; Order.bus := BusOk |} (System.fresh tt)
       = (Return (Order.OrderPlaced order), w')
       /\ Order.slept w' = []
       /\ Order.orders w' = <[1 := order]> ∅.
Proof.
  assert (Hfault : System.always_faults
            (System.constant_post (Order.Answers 500 None))).
  { intros request r. exists 500, None, r. split; [reflexivity | lia]. }
  split; [exact Hfault |].
  destruct (server_error_places_the_order _ "widget" 42 2
              (System.bearer "alice.jwt") "alice" BusOk (System.fresh tt) Hfault)
    as (order & w' & Hrun & _ & Hslept & Horders & _); [reflexivity |].
  exists order, w'. split; [exact Hrun |]. split; [exact Hslept | exact Horders].
Defined.

(** * After the reservation: persistence and publication *)

Section AfterReservation.
Import Order.
Context {R : Type} (post : Request -> R -> attempt * R).

(** The retry loop touches neither the table of orders nor the broker
    nor the log. *)
Lemma reserve_loop_frame (request : Request) (delays : list Q) :
  forall (last_exc : option exn) (w w' : World R) (o : outcome unit),
    reserve_loop post delays last_exc request w = (o, w') ->
    orders w' = orders w /\ next_id w' = next_id w
    /\ orders_exchange w' = orders_exchange w /\ log w' = log w.
Proof.
  induction delays as [| delay rest IH]; intros last_exc w w' o; cbn [reserve_loop].
  - destruct last_exc; intros [= <- <-]; done.
  - destruct (post request (remote w)) as [a r].
    destruct (try_body a).
    + intros [= <- <-]; done.
    + intros Hrun. by destruct (IH _ _ _ _ Hrun) as (-> & -> & -> & ->).
    + intros Hrun. by destruct (IH _ _ _ _ Hrun) as (-> & -> & -> & ->).
Qed.

(** What the remote keeps in stock, as far as the order service's
    environment can tell. *)
Variable stock_of : R -> Z -> option Z.

(** C7. The reservation went through (the client returned and the
    remote stock of the product went from [q] to [q - n]) and the insert
    of the order row fails: the request ends in a 500, the table of
    orders is what it was before the request, no event is published, no
    further request is sent to the remote end, and the remote stock
    stays at [q - n]. *)
Theorem no_release_after_failed_insert (productname : string)
    (product_id n q : Z) (request : Request) (user : string) (e : env)
    (w w1 : World R) :
  stock_of (remote w) product_id = Some q ->
  reserve_inventory post request product_id n w = (Return tt, w1) ->
  stock_of (remote w1) product_id = Some (q - n) ->
  (exists exc w', insert_order productname product_id n user (insert_ok e) w1
                  = (Raise exc, w')) ->
  exists exc w2,
    create_order post productname product_id n request user e w = (Raise exc, w2)
    /\ respond (@Raise done exc) = Reply 500 InternalServerError
    /\ orders w2 = orders w
    /\ stock_of (remote w2) product_id = Some (q - n)
    /\ remote w2 = remote w1
    /\ posts w2 = posts w1
    /\ orders_exchange w2 = orders_exchange w.
Proof.
  intros _ Hreserve Hstock (exc & w' & Hinsert).
  destruct (insert_order_raises _ _ _ _ _ _ _ _ Hinsert) as [-> ->].
  destruct (reserve_loop_frame _ _ _ _ _ _ Hreserve) as (Horders & _ & Hex & _).
  exists PostgresError, w1. unfold create_order.
  rewrite Hreserve, Hinsert. by repeat split.
Qed.
End AfterReservation.

Lemma no_release_after_failed_insert_example :
  exists exc w2,
    Order.create_order (System.handler_post BusOk) "widget" 42 2
      (System.bearer "alice.jwt") "alice"
      {| Order.insert_ok := false; Order.bus := BusOk |}
      (System.fresh System.shelf)
    = (Raise exc, w2)
    /\ respond (@Raise Order.done exc) = Reply 500 InternalServerError
    /\ Order.orders w2 = ∅
    /\ Product.stock (Order.remote w2) 42 = Some 3.
Proof.
  destruct (no_release_after_failed_insert (System.handler_post BusOk)
              Product.stock "widget" 42 2 5 (System.bearer "alice.jwt") "alice"
              {| Order.insert_ok := false; Order.bus := BusOk |}
              (System.fresh System.shelf)
              (snd (Order.reserve_inventory (System.handler_post BusOk)
                      (System.bearer "alice.jwt") 42 2 (System.fresh System.shelf))))
    as (exc & w2 & Hrun & Hreply & Horders & Hstock & _).
  - reflexivity.
  - vm_compute. reflexivity.
  - vm_compute. reflexivity.
  - eexists _, _. reflexivity.
  - exists exc, w2. split; [exact Hrun |]. split; [exact Hreply |].
    split; [exact Horders | exact Hstock].
Defined.

(** * Best-effort publication *)

(** C8. A failure of the publication never changes what the caller
    sees nor what was committed before it.  Order service: the result of
    [create_order], the table of orders and the remote end are the same
    whatever the broker does, and when the broker raises after a
    reservation and an insert, the order is still reported as placed, its
    row stays, and one warning is logged.  Product service: the result of
    [reserve_inventory] and the table of products are the same whatever
    the broker does, and when the broker raises after a decrement (the
    [UPDATE] of a quantity that is within the stock and, if negative,
    within the column), the answer is still "reserved", the decrement
    stays, and one warning is logged. *)
Theorem publish_failure_is_swallowed {cols : Columns} :
  (forall (R : Type) (post : Request -> R -> Order.attempt * R)
          (productname : string) (product_id n : Z) (request : Request)
          (user : string) (ok : bool) (b b' : bus_outcome) (w : Order.World R),
      let run b := Order.create_order post productname product_id n request user
                     {| Order.insert_ok := ok; Order.bus := b |} w in
      fst (run b) = fst (run b')
      /\ Order.orders (snd (run b)) = Order.orders (snd (run b'))
      /\ Order.remote (snd (run b)) = Order.remote (snd (run b')))
  /\ (forall (R : Type) (post : Request -> R -> Order.attempt * R)
             (productname : string) (product_id n : Z) (request : Request)
             (user : string) (sent : bool) (w w1 w2 : Order.World R)
             (order : Order.order_row),
        Order.reserve_inventory post request product_id n w = (Return tt, w1) ->
        Order.insert_order productname product_id n user true w1 = (Return order, w2) ->
        exists w3,
          Order.create_order post productname product_id n request user
            {| Order.insert_ok := true; Order.bus := BusRaises sent |} w
          = (Return (Order.OrderPlaced order), w3)
          /\ respond (Return (Order.OrderPlaced order))
             = Reply 200 (Ok (Order.OrderPlaced order))
          /\ Order.orders w3 = Order.orders w2
          /\ Order.log w3 = Order.log w2 ++ ["Could not publish order event"])
  /\ (forall (product_id n : Z) (b b' : bus_outcome) (w : Product.World),
        fst (Product.reserve_inventory product_id n b w)
        = fst (Product.reserve_inventory product_id n b' w)
        /\ Product.products (snd (Product.reserve_inventory product_id n b w))
           = Product.products (snd (Product.reserve_inventory product_id n b' w)))
  /\ (forall (product_id n : Z) (sent : bool) (w : Product.World)
             (row : Product.product_row),
        Product.products w !! product_id = Some row ->
        n <= Product.quantity row ->
        (n < 0 -> quantity_fits n = true
                  /\ quantity_fits (Product.quantity row - n) = true) ->
        exists w',
          Product.reserve_inventory product_id n (BusRaises sent) w
          = (Return Product.Reserved, w')
          /\ respond (Return Product.Reserved) = Reply 200 (Ok Product.Reserved)
          /\ Product.stock w' product_id = Some (Product.quantity row - n)
          /\ Product.log w' = Product.log w ++ ["Could not publish inventory event"]).
Proof.
  split; [| split; [| split]].
  - intros R post productname product_id n request user ok b b' w. cbn.
    unfold Order.create_order.
    destruct (Order.reserve_inventory post request product_id n w) as [[[] | exc] w1];
      [| done].
    cbn [Order.insert_ok Order.bus].
    destruct (Order.insert_order productname product_id n user ok w1)
      as [[order | exc] w2]; done.
  - intros R post productname product_id n request user sent w w1 w2 order
      Hreserve Hinsert.
    eexists. unfold Order.create_order. rewrite Hreserve.
    cbn [Order.insert_ok Order.bus]. rewrite Hinsert. by repeat split.
  - intros product_id n b b' w. unfold Product.reserve_inventory.
    destruct (Product.products w !! product_id) as [row |]; [| done].
    destruct (Product.quantity row <? n); [done |].
    by destruct (Product.update_refused (Product.quantity row) n).
  - intros product_id n sent w row Hrow Hle Hfits.
    destruct (reserve_enough w product_id n (BusRaises sent) row Hrow Hle)
      as (w' & Hrun & _ & Hstock & _ & _ & Hlog).
    { unfold Product.update_refused.
      destruct (Z.ltb_spec n 0) as [Hneg | _]; [| done].
      destruct (Hfits Hneg) as [-> ->]. reflexivity. }
    exists w'. by repeat split.
Qed.

Lemma publish_failure_is_swallowed_example :
  (exists order w3,
     Order.create_order (System.handler_post (BusRaises false)) "widget" 42 2
       (System.bearer "alice.jwt") "alice"
       {| Order.insert_ok := true; Order.bus := BusRaises false |}
       (System.fresh System.shelf)
     = (Return (Order.OrderPlaced order), w3)
     /\ Order.orders w3 !! 1 = Some order
     /\ Order.orders_exchange w3 = []
     /\ Order.log w3 = ["Could not publish order event"])
  /\ (exists w',
        Product.reserve_inventory 42 2 (BusRaises false) System.shelf
        = (Return Product.Reserved, w')
        /\ Product.stock w' 42 = Some 3
        /\ Product.inventory w' = []
        /\ Product.log w' = ["Could not publish inventory event"]).
Proof.
  destruct publish_failure_is_swallowed as (_ & Horder & _ & Hproduct).
  split.
  - destruct (Horder _ (System.handler_post (BusRaises false)) "widget" 42 2
                (System.bearer "alice.jwt") "alice" false
                (System.fresh System.shelf)
                (snd (Order.reserve_inventory (System.handler_post (BusRaises false))
                        (System.bearer "alice.jwt") 42 2 (System.fresh System.shelf)))
                (snd (Order.insert_order "widget" 42 2 "alice" true
                   (snd (Order.reserve_inventory (System.handler_post (BusRaises false))
                        (System.bearer "alice.jwt") 42 2 (System.fresh System.shelf)))))
                {| Order.id := 1; Order.productname := "widget";
                   Order.product_id := 42; Order.quantity := 2;
                   Order.username := "alice"; Order.status := "CONFIRMED" |})
      as (w3 & Hrun & _ & Horders & Hlog).
    + vm_compute. reflexivity.
    + vm_compute. reflexivity.
    + eexists _, w3. split; [exact Hrun |].
      split; [rewrite Horders; vm_compute; reflexivity |].
      split; [| rewrite Hlog; vm_compute; reflexivity].
      revert Hrun. vm_compute. intros [= <-]. reflexivity.
  - destruct (Hproduct 42 2 false System.shelf _ eq_refl) as (w' & Hrun & _ & Hstock & Hlog);
      [cbn; lia | lia |].
    exists w'. split; [exact Hrun |]. split; [exact Hstock |].
    split; [| exact Hlog].
    revert Hrun. vm_compute. intros [= <-]. reflexivity.
Defined.

(** * Authentication and the routes behind it *)

Section Routes.
Context {cols : Columns} `{AuthLib}.



Lemma product_user_raises (request : Request) (exc : exn) :
  Product.get_current_user request = Raise exc ->
  exists detail, exc = HTTPException 401 detail.
Proof.
  unfold Product.get_current_user.
  destruct (bearer_token (authorization request)) as [token |].
  - destruct (jwt_decode token) as [k | [username |]].
    + intros [= <-]. by eexists.
    + destruct (String.eqb username ""); [| done]. intros [= <-]. by eexists.
    + intros [= <-]. by eexists.
  - intros [= <-]. by eexists.
Qed.


(** C5 (what the code does).  [DELETE /orders/{order_id}] by any
    authenticated user deletes the row with that identifier, whoever
    owns it: the user that the dependency returns is not compared with
    the owner of the row.  No other row is touched. *)
Theorem delete_order_by_any_user (R : Type)
    (post : Request -> R -> Order.attempt * R) (request : Request)
    (user : string) (order_id : Z) (row : Order.order_row) (w : Order.World R) :
  Order.get_current_user request = Return user ->
  Order.orders w !! order_id = Some row ->
  exists w',
    Order.serve post (Order.DeleteOrders order_id) request w
    = (Reply 200 (Ok (Order.OrderDeleted order_id)), w')
    /\ Order.orders w' !! order_id = None
    /\ (forall other, other <> order_id ->
          Order.orders w' !! other = Order.orders w !! other).
Proof.
  intros Huser Hrow. unfold Order.serve. rewrite Huser. cbn.
  unfold Order.delete_order. rewrite Hrow.
  eexists. split; [reflexivity |]. cbn. split.
  - apply lookup_delete_eq.
  - intros other Hne. by rewrite lookup_delete_ne.
Qed.

(** An identifier that is not in the table: 404 when it fits the column
    (the statement deletes nothing), 500 when it does not (the statement
    raises); nothing is deleted either way. *)
Lemma delete_order_unknown (R : Type)
    (post : Request -> R -> Order.attempt * R) (request : Request)
    (user : string) (order_id : Z) (w : Order.World R) :
  Order.get_current_user request = Return user ->
  Order.orders w !! order_id = None ->
  Order.serve post (Order.DeleteOrders order_id) request w
  = (if order_id_fits order_id
     then Reply 404 (HttpError (Some "Order not found"))
     else Reply 500 InternalServerError,
     w).
Proof.
  intros Huser Hnone. unfold Order.serve. rewrite Huser. cbn.
  unfold Order.delete_order. rewrite Hnone.
  by destruct (order_id_fits order_id).
Qed.

(** C4 (what the code does).  The request that the client of the order
    service sends carries the two arguments in its form body and nothing
    in its query string; the route of the product service reads them
    from the query string.  So that request is answered 401 or 422 and
    the stock is not touched; with a token the product service accepts,
    the answer is the 422 of a validation error. *)
Theorem reserve_endpoint_reads_the_query (request : Request)
    (product_id n : Z) (b : bus_outcome) (w : Product.World) :
  (exists answer,
     Product.reserve_endpoint (Order.outbound request product_id n) b w
     = (answer, w)
     /\ (status_code answer = 401 \/ status_code answer = 422))
  /\ (forall user,
        Product.get_current_user (Order.outbound request product_id n)
        = Return user ->
        Product.reserve_endpoint (Order.outbound request product_id n) b w
        = (unprocessable, w)).
Proof.
  unfold Product.reserve_endpoint. split.
  - destruct (Product.get_current_user (Order.outbound request product_id n))
      as [user | exc] eqn:Huser.
    + eexists. split; [reflexivity |]. by right.
    + destruct (product_user_raises _ _ Huser) as [detail ->].
      eexists. split; [reflexivity |]. by left.
  - by intros user ->.
Qed.
End Routes.


Lemma delete_order_by_any_user_example :
  Order.username System.alices_order = "alice"
  /\ Order.get_current_user (H := System.toy_lib) (System.bearer "bob.jwt")
     = Return "bob"
  /\ exists w',
       Order.serve (H := System.toy_lib)
         (System.constant_post (Order.Fails ConnectError))
         (Order.DeleteOrders 1) (System.bearer "bob.jwt") (System.after_alice tt)
       = (Reply 200 (Ok (Order.OrderDeleted 1)), w')
       /\ Order.orders w' !! 1 = None.
Proof.
  split; [reflexivity |]. split; [reflexivity |].
  destruct (delete_order_by_any_user (H := System.toy_lib) unit
              (System.constant_post (Order.Fails ConnectError))
              (System.bearer "bob.jwt") "bob" 1 System.alices_order
              (System.after_alice tt))
    as (w' & Hrun & Hgone & _); [reflexivity | reflexivity |].
  exists w'. split; [exact Hrun | exact Hgone].
Defined.

(** An identifier beyond every integer column is not answered 404. *)
Lemma delete_order_out_of_range :
  Order.serve (H := System.toy_lib)
    (System.constant_post (Order.Fails ConnectError))
    (Order.DeleteOrders 9223372036854775808) (System.bearer "bob.jwt")
    (System.after_alice tt)
  = (Reply 500 InternalServerError, System.after_alice tt).
Proof. reflexivity. Qed.

(** The owner is not asked: order 1 belongs to alice, bob presents a
    valid token and asks for its deletion, and the row is gone. *)
Lemma delete_order_by_another_user :
  ~ (forall (lib : AuthLib) (request : Request) (user : string) (order_id : Z)
            (row : Order.order_row) (w : Order.World unit),
        Order.get_current_user (H := lib) request = Return user ->
        Order.orders w !! order_id = Some row ->
        Order.username row <> user ->
        Order.orders
          (snd (Order.serve (H := lib)
                  (System.constant_post (Order.Fails ConnectError))
                  (Order.DeleteOrders order_id) request w)) !! order_id
        = Some row).
Proof.
  intros Honly.
  specialize (Honly System.toy_lib (System.bearer "bob.jwt") "bob" 1
                System.alices_order (System.after_alice tt)).
  assert (Hgone :
    Order.orders
      (snd (Order.serve (H := System.toy_lib)
              (System.constant_post (Order.Fails ConnectError))
              (Order.DeleteOrders 1) (System.bearer "bob.jwt")
              (System.after_alice tt))) !! 1 = None)
    by (vm_compute; reflexivity).
  rewrite Honly in Hgone; [discriminate | reflexivity | reflexivity |].
  cbn. discriminate.
Qed.

Lemma reserve_endpoint_reads_the_query_example :
  Product.get_current_user (H := System.toy_lib)
    (Order.outbound (System.bearer "alice.jwt") 42 3)
  = Return "alice"
  /\ Product.reserve_endpoint (H := System.toy_lib)
       (Order.outbound (System.bearer "alice.jwt") 42 3) BusOk System.shelf
     = (Reply 422 ValidationError, System.shelf).
Proof.
  split; [reflexivity |].
  destruct (reserve_endpoint_reads_the_query (H := System.toy_lib)
              (System.bearer "alice.jwt") 42 3 BusOk System.shelf) as [_ Hvalid].
  apply (Hvalid "alice"). reflexivity.
Defined.

(** The two services wired as declared: the three attempts of the client
    are answered 422, the loop runs off its end, and the order is placed
    while the shelf still holds five. *)
Lemma declared_wiring_places_the_order :
  exists order w',
    Order.serve (H := System.toy_lib) (System.declared_post (H := System.toy_lib) BusOk)
      (Order.PostOrders "widget" 42 3
         {| Order.insert_ok := true; Order.bus := BusOk |})
      (System.bearer "alice.jwt") (System.fresh System.shelf)
    = (Reply 200 (Ok (Order.OrderPlaced order)), w')
    /\ Order.orders w' !! 1 = Some order
    /\ length (Order.posts w') = 3%nat
    /\ Order.slept w' = []
    /\ Order.remote w' = System.shelf.
Proof. eexists _, _. vm_compute. repeat split. Qed.

(** * The table of orders over time *)

Section OrderRows.
Context {R : Type} {cols : Columns}
  (post : Request -> R -> Order.attempt * R) `{AuthLib}.

(** A row found after a request was either there before, unchanged, or
    was inserted by this request under a free identifier with status
    CONFIRMED. *)
Lemma create_order_rows (productname : string) (product_id n : Z)
    (request : Request) (user : string) (e : Order.env) (w : Order.World R)
    (i : Z) (row : Order.order_row) :
  Order.orders (snd (Order.create_order post productname product_id n
                       request user e w)) !! i = Some row ->
  Order.orders w !! i = Some row
  \/ (Order.orders w !! i = None /\ Order.status row = "CONFIRMED").
Proof.
  unfold Order.create_order.
  destruct (Order.reserve_inventory post request product_id n w)
    as [[[] | exc] w1] eqn:Hreserve;
    destruct (reserve_loop_frame post _ _ _ _ _ _ Hreserve) as (Horders & Hnext & _).
  - unfold Order.insert_order.
    destruct (Order.insert_ok e); cbn.
    + destruct (Order.orders w1 !! Order.next_id w1) eqn:Hfree; cbn.
      * rewrite Horders. by left.
      * rewrite lookup_insert. case_decide as Hi.
        -- intros [= <-]. right. subst i. by rewrite <- Horders.
        -- rewrite Horders. by left.
    + rewrite Horders. by left.
  - cbn. rewrite Horders. by left.
Qed.

Lemma serve_rows (c : Order.call) (request : Request) (w : Order.World R)
    (i : Z) (row : Order.order_row) :
  Order.orders (snd (Order.serve post c request w)) !! i = Some row ->
  Order.orders w !! i = Some row
  \/ (Order.orders w !! i = None /\ Order.status row = "CONFIRMED").
Proof.
  unfold Order.serve.
  destruct (Order.get_current_user request) as [user | exc]; [| by left].
  destruct c as [productname product_id n e | order_id |]; cbn.
  - destruct (Order.create_order post productname product_id n request user e w)
      as [o w'] eqn:Hrun.
    intros Hrow. apply (create_order_rows productname product_id n request user e).
    by rewrite Hrun.
  - unfold Order.delete_order.
    destruct (Order.orders w !! order_id) eqn:Hthere; cbn;
      [| destruct (order_id_fits order_id); by left].
    rewrite lookup_delete. case_decide; [done | by left].
  - by left.
Qed.

(** C9. Every row of the table of orders, in every state the order
    service reaches from an empty table, has status CONFIRMED; and no
    request changes a row that exists: a row found under an identifier
    before and after a request is the same row. *)
Theorem orders_confirmed_and_never_updated :
  (forall w : Order.World R,
      System.reachable post w ->
      forall (i : Z) (row : Order.order_row),
        Order.orders w !! i = Some row -> Order.status row = "CONFIRMED")
  /\ (forall w w' : Order.World R,
        System.step post w w' ->
        forall (i : Z) (row row' : Order.order_row),
          Order.orders w !! i = Some row ->
          Order.orders w' !! i = Some row' ->
          row' = row).
Proof.
  split.
  - intros w Hreach. induction Hreach as [r | w w' Hreach IH Hstep].
    + intros i row. cbn. by rewrite lookup_empty.
    + destruct Hstep as [c request w]. intros i row Hrow.
      destruct (serve_rows c request w i row Hrow) as [Hold | [_ Hnew]].
      * by apply (IH i).
      * exact Hnew.
  - intros w w' Hstep. destruct Hstep as [c request w].
    intros i row row' Hbefore Hafter.
    destruct (serve_rows c request w i row' Hafter) as [Hold | [Hnone _]];
      congruence.
Qed.
End OrderRows.

Lemma orders_confirmed_and_never_updated_example :
  exists w row,
    System.reachable (H := System.toy_lib) (System.handler_post BusOk) w
    /\ Order.orders w !! 1 = Some row
    /\ Order.username row = "alice"
    /\ Order.status row = "CONFIRMED".
Proof.
  set (w := snd (Order.serve (H := System.toy_lib) (System.handler_post BusOk)
                   (Order.PostOrders "widget" 42 2
                      {| Order.insert_ok := true; Order.bus := BusOk |})
                   (System.bearer "alice.jwt") (System.fresh System.shelf))).
  assert (Hreach : System.reachable (H := System.toy_lib) (System.handler_post BusOk) w).
  { eapply System.reachable_step; [apply System.reachable_fresh |].
    apply System.step_serve. }
  exists w,
    {| Order.id := 1; Order.productname := "widget"; Order.product_id := 42;
       Order.quantity := 2; Order.username := "alice";
       Order.status := "CONFIRMED" |}.
  assert (Hrow : Order.orders w !! 1
                 = Some {| Order.id := 1; Order.productname := "widget";
                           Order.product_id := 42; Order.quantity := 2;
                           Order.username := "alice";
                           Order.status := "CONFIRMED" |})
    by (vm_compute; reflexivity).
  split; [exact Hreach |]. split; [exact Hrow |]. split; [reflexivity |].
  destruct (orders_confirmed_and_never_updated (H := System.toy_lib)
              (System.handler_post BusOk)) as [Hconfirmed _].
  exact (Hconfirmed w Hreach 1 _ Hrow).
Defined.

(** * Further properties of the reservation client and the orchestrator *)

Section ClientBounds.
Import Order.
Context {R : Type} (post : Request -> R -> attempt * R).

Lemma reserve_loop_result (request : Request) (delays : list Q) :
  forall (last_exc : option exn) (w w' : World R) (o : outcome unit),
    reserve_loop post delays last_exc request w = (o, w') ->
    o = Return tt
    \/ o = Raise (HTTPException 502 (Some "Inventory service unavailable")).
Proof.
  induction delays as [| delay rest IH]; intros last_exc w w' o; cbn [reserve_loop].
  - destruct last_exc; intros [= <- <-]; auto.
  - destruct (post request (remote w)) as [a r].
    destruct (try_body a); [intros [= <- <-]; auto | apply IH | apply IH].
Qed.

Lemma total_sleep_sublist (ds delays : list Q) :
  sublist ds delays ->
  Forall (fun d => (0 <= d)%Q) delays ->
  (total_sleep ds <= total_sleep delays)%Q.
Proof.
  unfold total_sleep.
  intros Hsub. induction Hsub as [| d l1 l2 Hsub IH | d l1 l2 Hsub IH];
    intros Hpos; cbn [foldr].
  - lra.
  - apply Forall_cons in Hpos as [_ Hpos]. specialize (IH Hpos). lra.
  - apply Forall_cons in Hpos as [Hd Hpos]. specialize (IH Hpos). lra.
Qed.

(** The traffic of the loop: one request per attempt, at least one
    attempt when there is a delay, at most one per delay, and the sleeps
    are some of the delays, in their order. *)
Lemma reserve_loop_traffic (request : Request) (delays : list Q) :
  forall (last_exc : option exn) (w : World R),
    exists (k : nat) (ds : list Q),
      posts (snd (reserve_loop post delays last_exc request w))
      = posts w ++ replicate k request
      /\ (k <= length delays)%nat
      /\ (delays <> [] -> (1 <= k)%nat)
      /\ slept (snd (reserve_loop post delays last_exc request w))
         = slept w ++ ds
      /\ sublist ds delays.
Proof.
  induction delays as [| delay rest IH]; intros last_exc w; cbn [reserve_loop].
  - exists 0%nat, []. destruct last_exc; cbn; rewrite !app_nil_r;
      repeat split; done.
  - destruct (post request (remote w)) as [a r].
    destruct (try_body a) as [| exc |].
    + exists 1%nat, []. cbn. rewrite app_nil_r.
      repeat split; [lia | lia | apply sublist_nil_l].
    + destruct (IH (Some exc) (sleep delay (sent request r w)))
        as (k & ds & Hposts & Hk & _ & Hslept & Hsub).
      exists (S k), (delay :: ds). rewrite Hposts, Hslept. cbn.
      rewrite <- !app_assoc. repeat split; [lia | lia |].
      by apply sublist_skip.
    + destruct (IH last_exc (sent request r w))
        as (k & ds & Hposts & Hk & _ & Hslept & Hsub).
      exists (S k), ds. rewrite Hposts, Hslept. cbn.
      rewrite <- !app_assoc. repeat split; [lia | lia |].
      by apply sublist_cons.
Qed.

(** X1. Whatever the remote end does, the only exception that leaves the
    reservation client is the 502 "Inventory service unavailable": never a
    404, a 409, a transport error or a decoding error. *)
Theorem reserve_inventory_raises_only_502 (request : Request)
    (product_id n : Z) (w w' : World R) (exc : exn) :
  reserve_inventory post request product_id n w = (Raise exc, w') ->
  exc = HTTPException 502 (Some "Inventory service unavailable").
Proof.
  intros Hrun.
  destruct (reserve_loop_result _ _ _ _ _ _ Hrun) as [Hret | Hraise];
    congruence.
Qed.

(** X2. Whatever the remote end does, one call of the reservation client
    sends between one and three requests, all of them the same request,
    and sleeps some of the three delays in their order, so at most 1.7
    seconds in all. *)
Theorem reserve_inventory_budget (request : Request) (product_id n : Z)
    (w : World R) :
  exists (k : nat) (ds : list Q),
    posts (snd (reserve_inventory post request product_id n w))
    = posts w ++ replicate k (outbound request product_id n)
    /\ (1 <= k <= 3)%nat
    /\ slept (snd (reserve_inventory post request product_id n w))
       = slept w ++ ds
    /\ sublist ds [0.2; 0.5; 1.0]%Q
    /\ (total_sleep ds <= 1.7)%Q.
Proof.
  destruct (reserve_loop_traffic (outbound request product_id n) backoff None w)
    as (k & ds & Hposts & Hk & Hone & Hslept & Hsub).
  exists k, ds. split; [exact Hposts |].
  split; [split; [by apply Hone | exact Hk] |].
  split; [exact Hslept |]. split; [exact Hsub |].
  apply (Qle_trans _ (total_sleep backoff)).
  - apply total_sleep_sublist; [exact Hsub |].
    repeat constructor; unfold Qle; cbn; lia.
  - unfold Qle; cbn; lia.
Qed.

(** X3. Whatever the remote end, the database and the broker do, the
    answer to an order placement has status 200, 500 or 502: a 404 or 409
    of the inventory service never reaches the caller. *)
Theorem create_order_statuses (productname : string) (product_id n : Z)
    (request : Request) (user : string) (e : env) (w : World R) :
  let answer :=
    respond (fst (create_order post productname product_id n request user e w)) in
  status_code answer = 200 \/ status_code answer = 500 \/ status_code answer = 502.
Proof.
  cbn. unfold create_order.
  destruct (reserve_inventory post request product_id n w) as [[[] | exc] w1]
    eqn:Hreserve.
  - destruct (insert_order productname product_id n user (insert_ok e) w1)
      as [[order | exc] w2] eqn:Hinsert; cbn.
    + by left.
    + destruct (insert_order_raises _ _ _ _ _ _ _ _ Hinsert) as [-> _].
      right. by left.
  - destruct (reserve_loop_result _ _ _ _ _ _ Hreserve) as [Hret | Hraise];
      [discriminate |].
    injection Hraise as ->. cbn. right. by right.
Qed.

(** X4. An order placement that fails leaves the table of orders, the
    'orders' exchange and the log as they were.  One that succeeds adds
    exactly one row, under a free identifier, owned by the caller, with
    the product and quantity asked for and status CONFIRMED, and at most
    one event, an [OrderCreated] with the same user, product and
    quantity. *)
Theorem create_order_effect (productname : string) (product_id n : Z)
    (request : Request) (user : string) (e : env) (w w' : World R) :
  (forall exc,
     create_order post productname product_id n request user e w = (Raise exc, w') ->
     orders w' = orders w /\ orders_exchange w' = orders_exchange w
     /\ log w' = log w)
  /\ (forall d,
        create_order post productname product_id n request user e w = (Return d, w') ->
        let order := {| id := next_id w; productname := productname;
                        product_id := product_id; quantity := n;
                        username := user; status := "CONFIRMED" |} in
        d = OrderPlaced order
        /\ orders w !! next_id w = None
        /\ orders w' = <[next_id w := order]> (orders w)
        /\ orders_exchange w'
           = orders_exchange w
             ++ (if sent_on (bus e) then [OrderCreated user product_id n] else [])).
Proof.
  unfold create_order.
  destruct (reserve_inventory post request product_id n w) as [[[] | exc1] w1]
    eqn:Hreserve;
    destruct (reserve_loop_frame post _ _ _ _ _ _ Hreserve)
      as (Horders & Hnext & Hex & Hlog).
  - unfold insert_order. destruct (insert_ok e); cbn.
    + destruct (orders w1 !! next_id w1) eqn:Hfree; cbn.
      * split; [intros exc [= <- <-]; done | intros d; discriminate].
      * split; [intros exc; discriminate |].
        intros d [= <- <-]. cbn.
        rewrite <- Horders, <- Hnext, <- Hex.
        repeat split; try done.
        destruct (sent_on (bus e)); [done | by rewrite app_nil_r].
    + split; [intros exc [= <- <-]; done | intros d; discriminate].
  - split; [intros exc [= <- <-]; done | intros d; discriminate].
Qed.
End ClientBounds.

Lemma reserve_inventory_raises_only_502_example :
  exists w',
    Order.reserve_inventory System.scripted_post (System.bearer "alice.jwt") 42 3
      (System.fresh [Order.Answers 409 (Some (Some "Insufficient stock"));
                     Order.Fails ConnectError; Order.Answers 404 None])
    = (Raise (HTTPException 502 (Some "Inventory service unavailable")), w').
Proof.
  destruct (Order.reserve_inventory System.scripted_post (System.bearer "alice.jwt")
              42 3
              (System.fresh [Order.Answers 409 (Some (Some "Insufficient stock"));
                             Order.Fails ConnectError; Order.Answers 404 None]))
    as [[[] | exc] w1] eqn:Hrun.
  - vm_compute in Hrun. discriminate Hrun.
  - exists w1.
    by rewrite (reserve_inventory_raises_only_502 _ _ _ _ _ _ _ Hrun).
Defined.

Lemma create_order_effect_example :
  exists w',
    Order.create_order (System.handler_post BusOk) "widget" 42 2
      (System.bearer "alice.jwt") "alice"
      {| Order.insert_ok := true; Order.bus := BusOk |}
      (System.fresh System.shelf)
    = (Return (Order.OrderPlaced
                 {| Order.id := 1; Order.productname := "widget";
                    Order.product_id := 42; Order.quantity := 2;
                    Order.username := "alice"; Order.status := "CONFIRMED" |}),
       w')
    /\ Order.orders_exchange w' = [OrderCreated "alice" 42 2].
Proof.
  set (run := Order.create_order (System.handler_post BusOk) "widget" 42 2
                (System.bearer "alice.jwt") "alice"
                {| Order.insert_ok := true; Order.bus := BusOk |}
                (System.fresh System.shelf)).
  assert (Hrun : run = (Return (Order.OrderPlaced
                 {| Order.id := 1; Order.productname := "widget";
                    Order.product_id := 42; Order.quantity := 2;
                    Order.username := "alice"; Order.status := "CONFIRMED" |}),
                        snd run)) by (vm_compute; reflexivity).
  exists (snd run). split; [exact Hrun |].
  destruct (create_order_effect (System.handler_post BusOk) "widget" 42 2
              (System.bearer "alice.jwt") "alice"
              {| Order.insert_ok := true; Order.bus := BusOk |}
              (System.fresh System.shelf) (snd run)) as [_ Hok].
  destruct (Hok _ Hrun) as (_ & _ & _ & Hevents). exact Hevents.
Defined.

(** * Further properties of the order routes *)

Section OrderRoutes.
Context {cols : Columns} `{AuthLib} {R : Type}
  (post : Request -> R -> Order.attempt * R).

(** X5. [GET /orders] answers an authenticated user with exactly the
    rows of the table whose owner is that user, none of another user, and
    changes nothing. *)
Theorem list_orders_own_rows (request : Request) (user : string)
    (w : Order.World R) :
  Order.get_current_user request = Return user ->
  exists rows,
    Order.serve post Order.GetOrders request w
    = (Reply 200 (Ok (Order.Orders rows)), w)
    /\ (forall row, row ∈ rows <->
          exists i, Order.orders w !! i = Some row /\ Order.username row = user).
Proof.
  intros Huser. unfold Order.serve. rewrite Huser. cbn.
  eexists. split; [reflexivity |].
  intros row. rewrite list_elem_of_fmap. split.
  - intros ([i row'] & -> & Hin).
    apply elem_of_map_to_list, map_lookup_filter_Some in Hin as [Hrow Hown].
    by exists i.
  - intros (i & Hrow & Hown). exists (i, row). split; [done |].
    by apply elem_of_map_to_list, map_lookup_filter_Some.
Qed.

(** X6. The two services do not authenticate alike: whoever the product
    service accepts, the order service accepts as the same user, and
    whatever the order service refuses the product service refuses with
    the same exception; but a token whose subject is the empty string is a
    user for the order service and refused with 401 by the product
    service. *)
Theorem subject_accepted_by_both (request : Request) :
  (forall user, Product.get_current_user request = Return user ->
     Order.get_current_user request = Return user /\ user <> "")
  /\ (forall exc, Order.get_current_user request = Raise exc ->
        Product.get_current_user request = Raise exc)
  /\ (forall user, Order.get_current_user request = Return user ->
        user <> "" -> Product.get_current_user request = Return user)
  /\ (Order.get_current_user request = Return "" ->
        Product.get_current_user request = Raise credentials_exception).
Proof.
  unfold Product.get_current_user, Order.get_current_user.
  destruct (bearer_token (authorization request)) as [token |];
    [destruct (jwt_decode token) as [k | [sub |]] |].
  2: {
    destruct (String.eqb_spec sub "") as [-> | Hsub];
      (split; [| split; [| split]]).
    - discriminate.
    - discriminate.
    - intros u [= <-] Hne. by destruct Hne.
    - done.
    - intros u [= <-]. done.
    - discriminate.
    - done.
    - intros [= ->]. by destruct Hsub. }
  all: split; [| split; [| split]]; try discriminate; auto.
Qed.
End OrderRoutes.

Lemma list_orders_own_rows_example :
  Order.serve (H := System.toy_lib) (System.constant_post (Order.Fails ConnectError))
    Order.GetOrders (System.bearer "bob.jwt") two_orders
  = (Reply 200 (Ok (Order.Orders [bobs_order])), two_orders)
  /\ ~ System.alices_order ∈ [bobs_order].
Proof.
  split; [vm_compute; reflexivity |].
  destruct (list_orders_own_rows (H := System.toy_lib)
              (System.constant_post (Order.Fails ConnectError))
              (System.bearer "bob.jwt") "bob" two_orders eq_refl)
    as (rows & Hrun & Hrows).
  assert (Hsame : rows = [bobs_order]).
  { revert Hrun. vm_compute. by intros [= <-]. }
  rewrite <- Hsame. intros Hin. apply Hrows in Hin as (i & _ & Howner).
  discriminate Howner.
Defined.

Lemma subject_accepted_by_both_example :
  Order.get_current_user (H := blank_lib) (System.bearer "blank.jwt") = Return ""
  /\ Product.get_current_user (H := blank_lib) (System.bearer "blank.jwt")
     = Raise credentials_exception.
Proof.
  split; [reflexivity |].
  destruct (subject_accepted_by_both (H := blank_lib) (System.bearer "blank.jwt"))
    as (_ & _ & _ & Hblank).
  apply Hblank. reflexivity.
Defined.

(** * Further properties of the reservation server *)

Section Stock.
Import Product.
Context {cols : Columns}.

(** One call of the handler: either it is refused and the world stays,
    or the product is there with enough stock, its quantity alone is
    rewritten, and the event is appended when the publication got
    through. *)
Lemma reserve_cases (product_id n : Z) (b : bus_outcome) (w : World) :
  snd (reserve_inventory product_id n b w) = w
  \/ (exists row,
        products w !! product_id = Some row /\ n <= quantity row
        /\ products (snd (reserve_inventory product_id n b w))
           = <[product_id := set_quantity (quantity row - n) row]> (products w)
        /\ inventory (snd (reserve_inventory product_id n b w))
           = inventory w
             ++ (if sent_on b then [InventoryReserved product_id n] else [])).
Proof.
  unfold reserve_inventory.
  destruct (products w !! product_id) as [row |] eqn:Hrow; [| by left].
  destruct (Z.ltb_spec (quantity row) n) as [Hlt | Hle]; [by left |].
  destruct (update_refused (quantity row) n); [by left |].
  right. exists row. cbn. repeat split; try done.
  - apply map_eq. intros i. destruct (decide (i = product_id)) as [-> | Hne].
    + by rewrite lookup_alter_eq, lookup_insert_eq, Hrow.
    + by rewrite lookup_alter_ne, lookup_insert_ne.
  - destruct (sent_on b); [done | by rewrite app_nil_r].
Qed.

Lemma reserved_total_app (product_id : Z) (events more : list event) :
  Catalog.reserved_total product_id (events ++ more)
  = Catalog.reserved_total product_id events
    + Catalog.reserved_total product_id more.
Proof.
  induction events as [| e events IH]; cbn [app Catalog.reserved_total].
  - lia.
  - destruct e as [u p m | p m]; rewrite IH; lia.
Qed.

(** X7. No sequence of calls of the reservation handler, whatever the
    quantities asked for (zero and negative ones included) and whatever
    the broker does, takes a stock below zero: when every stock is
    non-negative before, every stock is non-negative after. *)
Theorem reservations_keep_stock_nonnegative
    (calls : list (Z * Z * bus_outcome)) (w : World) :
  (forall i row, products w !! i = Some row -> 0 <= quantity row) ->
  forall i row,
    products (Catalog.reserve_all calls w) !! i = Some row -> 0 <= quantity row.
Proof.
  revert w. induction calls as [| [[product_id n] b] rest IH]; intros w Hpos;
    cbn [Catalog.reserve_all]; [exact Hpos |].
  apply IH. intros i row.
  destruct (reserve_cases product_id n b w) as [-> | (old & Hold & Hle & -> & _)];
    [apply Hpos |].
  rewrite lookup_insert. case_decide as Hi; [| apply Hpos].
  intros [= <-]. cbn. specialize (Hpos _ _ Hold). lia.
Qed.

(** X8. Two reservations of the same product, of quantities [n1] and
    [n2] that are not negative and fit together in the stock, both succeed
    and leave the table of products exactly as one reservation of
    [n1 + n2] does. *)
Theorem reservations_add_up (product_id n1 n2 : Z) (b1 b2 b : bus_outcome)
    (w : World) (row : product_row) :
  products w !! product_id = Some row ->
  0 <= n1 ->
  0 <= n2 ->
  n1 + n2 <= quantity row ->
  exists w1 w2 w12,
    reserve_inventory product_id n1 b1 w = (Return Reserved, w1)
    /\ reserve_inventory product_id n2 b2 w1 = (Return Reserved, w2)
    /\ reserve_inventory product_id (n1 + n2) b w = (Return Reserved, w12)
    /\ products w2 = products w12
    /\ stock w2 product_id = Some (quantity row - n1 - n2).
Proof.
  intros Hrow Hn1 Hn2 Hfit.
  destruct (reserve_enough w product_id n1 b1 row Hrow)
    as (w1 & Hrun1 & Hrow1 & _ & Hother1 & _);
    [lia | by apply update_accepts_nonnegative |].
  destruct (reserve_enough w1 product_id n2 b2 _ Hrow1)
    as (w2 & Hrun2 & Hrow2 & Hstock2 & Hother2 & _);
    [cbn; lia | by apply update_accepts_nonnegative |].
  destruct (reserve_enough w product_id (n1 + n2) b row Hrow Hfit)
    as (w12 & Hrun12 & Hrow12 & _ & Hother12 & _);
    [apply update_accepts_nonnegative; lia |].
  exists w1, w2, w12.
  split; [exact Hrun1 |]. split; [exact Hrun2 |]. split; [exact Hrun12 |].
  split; [| exact Hstock2].
  apply map_eq. intros i. destruct (decide (i = product_id)) as [-> | Hne].
  - rewrite Hrow2, Hrow12. cbn. unfold set_quantity. cbn.
    do 2 f_equal. lia.
  - by rewrite Hother2, Hother1, Hother12.
Qed.

(** X9. The 'inventory' exchange is a faithful ledger as long as every
    publication goes through: over any sequence of calls of the handler,
    what is in stock of a product plus what the events say was reserved of
    it stays the same. *)
Theorem events_account_for_stock (calls : list (Z * Z * bus_outcome))
    (product_id : Z) (w : World) (row : product_row) :
  Forall (fun c => sent_on (snd c) = true) calls ->
  products w !! product_id = Some row ->
  exists row',
    products (Catalog.reserve_all calls w) !! product_id = Some row'
    /\ quantity row'
       + Catalog.reserved_total product_id (inventory (Catalog.reserve_all calls w))
       = quantity row + Catalog.reserved_total product_id (inventory w).
Proof.
  intros Hsent. revert w row.
  induction Hsent as [| [[p n] b] rest Hb _ IH]; intros w row Hrow;
    cbn [Catalog.reserve_all]; [by exists row |].
  cbn in Hb.
  destruct (reserve_cases p n b w) as [Hsame | (old & Hold & Hle & Hrows & Hevents)].
  - rewrite Hsame. by apply IH.
  - destruct (IH (snd (reserve_inventory p n b w))
                (if decide (p = product_id)
                 then set_quantity (quantity old - n) old else row))
      as (row' & Hrow' & Hsum).
    { rewrite Hrows, lookup_insert. by case_decide. }
    exists row'. split; [exact Hrow' |].
    rewrite Hsum, Hevents, Hb, reserved_total_app. cbn.
    case_decide as Hp.
    + subst p. rewrite Z.eqb_refl. cbn.
      rewrite Hrow in Hold. injection Hold as <-. lia.
    + destruct (Z.eqb_spec p product_id); [done | lia].
Qed.
End Stock.

Lemma reservations_keep_stock_nonnegative_example :
  exists row,
    Product.products
      (Catalog.reserve_all
         [(42, 3, BusOk); (42, 3, BusOk); (42, -4, BusRaises false); (99, 1, BusOk)]
         System.shelf) !! 42 = Some row
    /\ Product.quantity row = 6
    /\ 0 <= Product.quantity row.
Proof.
  eexists. split; [vm_compute; reflexivity |]. split; [reflexivity |].
  apply (reservations_keep_stock_nonnegative
           [(42, 3, BusOk); (42, 3, BusOk); (42, -4, BusRaises false); (99, 1, BusOk)]
           System.shelf) with (i := 42).
  - intros i row Hrow. cbn in Hrow.
    apply lookup_singleton_Some in Hrow as [_ <-]. cbn. lia.
  - vm_compute. reflexivity.
Defined.

Lemma reservations_add_up_example :
  exists w1 w2 w12,
    Product.reserve_inventory 42 2 BusOk System.shelf = (Return Product.Reserved, w1)
    /\ Product.reserve_inventory 42 3 BusOk w1 = (Return Product.Reserved, w2)
    /\ Product.reserve_inventory 42 5 BusOk System.shelf
       = (Return Product.Reserved, w12)
    /\ Product.products w2 = Product.products w12
    /\ Product.stock w2 42 = Some 0.
Proof.
  destruct (reservations_add_up 42 2 3 BusOk BusOk BusOk System.shelf _ eq_refl)
    as (w1 & w2 & w12 & Hrun1 & Hrun2 & Hrun12 & Hsame & Hstock);
    [lia | lia | cbn; lia |].
  exists w1, w2, w12. repeat split; assumption.
Defined.

Lemma events_account_for_stock_example :
  exists row',
    Product.products
      (Catalog.reserve_all
         [(42, 3, BusOk); (42, 3, BusOk); (42, 1, BusOk); (7, 1, BusOk)]
         System.shelf) !! 42 = Some row'
    /\ Product.quantity row'
       + Catalog.reserved_total 42
           (Product.inventory
              (Catalog.reserve_all
                 [(42, 3, BusOk); (42, 3, BusOk); (42, 1, BusOk); (7, 1, BusOk)]
                 System.shelf))
       = 5.
Proof.
  destruct (events_account_for_stock
              [(42, 3, BusOk); (42, 3, BusOk); (42, 1, BusOk); (7, 1, BusOk)]
              42 System.shelf
              {| Product.id := 42; Product.name := "widget"; Product.quantity := 5 |})
    as (row' & Hrow' & Hsum).
  - repeat constructor.
  - reflexivity.
  - exists row'. split; [exact Hrow' |]. rewrite Hsum. reflexivity.
Defined.

(** * Requests without a bearer token *)

Section NoToken.
Context {cols : Columns} `{AuthLib} `{User.IdentityLib}.

End NoToken.


(** * The catalogue: single products and pages *)

Section Catalogue.
Import Product.
Context {cols : Columns}.

Lemma id_le_transitive : Transitive Catalog.id_le.
Proof. intros a b c. unfold Catalog.id_le. lia. Qed.

Lemma id_le_total : Total Catalog.id_le.
Proof. intros a b. unfold Catalog.id_le. lia. Qed.

Lemma rows_by_id_sorted (w : World) :
  StronglySorted Catalog.id_le (Catalog.rows_by_id w).
Proof.
  apply (@StronglySorted_merge_sort _ Catalog.id_le _
           id_le_transitive id_le_total).
Qed.

Lemma rows_by_id_elem (w : World) (row : product_row) :
  row ∈ Catalog.rows_by_id w <-> exists i, products w !! i = Some row.
Proof.
  unfold Catalog.rows_by_id. rewrite merge_sort_Permutation, list_elem_of_fmap.
  split.
  - intros ([i row'] & -> & Hin). exists i. by apply elem_of_map_to_list.
  - intros (i & Hrow). exists (i, row). split; [done |].
    by apply elem_of_map_to_list.
Qed.


(** X11. Adding a product and reading it back gives the row that was
    added, with the name and quantity sent, and leaves every other
    product readable as before; deleting it again makes both the read and
    a reservation of it answer 404, and the table is back to what it was
    before the product was added. *)
Theorem product_round_trip (new_name : string) (q : Z) (w : World) :
  products w !! next_id w = None ->
  exists row w1 w2,
    add_product new_name q w = (Return (ProductAdded row), w1)
    /\ row = {| id := next_id w; name := new_name; quantity := q |}
    /\ Catalog.get_product (id row) w1 = (Return row, w1)
    /\ (forall other old, products w !! other = Some old ->
          Catalog.get_product other w1 = (Return old, w1))
    /\ delete_product (id row) w1 = (Return (ProductDeleted (id row)), w2)
    /\ Catalog.get_product (id row) w2
       = (Raise (HTTPException 404 (Some "Product not found")), w2)
    /\ (forall n b, reserve_inventory (id row) n b w2
                    = (Raise (HTTPException 404 (Some "Product not found")), w2))
    /\ products w2 = products w.
Proof.
  intros Hfree. unfold add_product, insert_product. rewrite Hfree.
  eexists _, _, _. split; [reflexivity |]. split; [reflexivity |]. cbn.
  unfold Catalog.get_product, delete_product, reserve_inventory. cbn.
  rewrite lookup_insert_eq. split; [reflexivity |]. split.
  - intros other old Hold.
    rewrite lookup_insert_ne by (intros Heq; rewrite <- Heq in Hold; congruence).
    by rewrite Hold.
  - split; [reflexivity |]. cbn. rewrite lookup_delete_eq.
    split; [reflexivity |]. split; [reflexivity |].
    rewrite delete_insert_eq. by apply delete_id.
Qed.


(** X13. A page that is read from the database (nothing usable in the
    cache) is sorted by identifier and holds rows of the table only. *)
Theorem fresh_page_is_sorted (page page_size now : Z) (w : Catalog.World) :
  Catalog.redis_get now (page, page_size) w = None ->
  exists rows,
    fst (Catalog.list_products page page_size now w) = Return rows
    /\ StronglySorted Catalog.id_le rows
    /\ (forall row, row ∈ rows ->
          exists i, products (Catalog.shop w) !! i = Some row).
Proof.
  intros Hmiss. unfold Catalog.list_products. rewrite Hmiss. cbn.
  eexists. split; [reflexivity |]. unfold Catalog.select_page. split.
  - apply (StronglySorted_app_1_l _ _
             (drop (Z.to_nat page_size)
                (drop (Z.to_nat ((page - 1) * page_size))
                   (Catalog.rows_by_id (Catalog.shop w))))).
    rewrite take_drop.
    apply (StronglySorted_app_1_r _
             (take (Z.to_nat ((page - 1) * page_size))
                (Catalog.rows_by_id (Catalog.shop w)))).
    rewrite take_drop. apply rows_by_id_sorted.
  - intros row Hin. apply rows_by_id_elem.
    eapply elem_of_sublist; [exact Hin |].
    etrans; [apply sublist_take | apply sublist_drop].
Qed.

(** X14. Reading the pages 1 to [k] of one page size through
    [list_products], one after the other, from a cache that holds nothing
    usable for that page size, gives, put end to end, exactly the first
    [k * page_size] rows of the table sorted by identifier, without gap
    or repetition, and leaves the products as they were. *)
Theorem pages_tile_the_table (page_size now : Z) (k : nat) (w : Catalog.World) :
  1 <= page_size ->
  (forall page, Catalog.redis_get now (page, page_size) w = None) ->
  fst (Catalog.read_pages page_size now k w)
  = take (k * Z.to_nat page_size) (Catalog.rows_by_id (Catalog.shop w))
  /\ Catalog.shop (snd (Catalog.read_pages page_size now k w)) = Catalog.shop w.
Proof.
  intros Hsize Hcold.
  assert (Hinv :
    fst (Catalog.read_pages page_size now k w)
    = take (k * Z.to_nat page_size) (Catalog.rows_by_id (Catalog.shop w))
    /\ Catalog.shop (snd (Catalog.read_pages page_size now k w)) = Catalog.shop w
    /\ (forall page, Z.of_nat k < page ->
          Catalog.redis_get now (page, page_size)
            (snd (Catalog.read_pages page_size now k w)) = None)).
  { induction k as [| k IH]; cbn [Catalog.read_pages].
    - cbn. split; [by rewrite take_0 |]. split; [done |].
      intros page _. apply Hcold.
    - destruct (Catalog.read_pages page_size now k w) as [rows w1].
      cbn [fst snd] in IH. destruct IH as (Hrows & Hshop & Hmiss).
      unfold Catalog.list_products. rewrite (Hmiss (Z.of_nat (S k))) by lia.
      cbn [fst snd]. split; [| split].
      + rewrite Hrows, Hshop. unfold Catalog.select_page.
        replace (Z.to_nat ((Z.of_nat (S k) - 1) * page_size))
          with (k * Z.to_nat page_size)%nat.
        * rewrite take_take_drop. f_equal. lia.
        * replace (Z.of_nat (S k) - 1) with (Z.of_nat k) by lia.
          rewrite Z2Nat.inj_mul by lia. by rewrite Nat2Z.id.
      + exact Hshop.
      + intros page Hpage. specialize (Hmiss page).
        unfold Catalog.redis_get, Catalog.redis_set in *. cbn [Catalog.redis].
        rewrite lookup_insert_ne; [apply Hmiss; lia |].
        intros [= Heq]. lia. }
  destruct Hinv as (Hrows & Hshop & _). by split.
Qed.

(** X15. A page read from the database at time [now] is served from the
    cache, unchanged and without reading the database, to every request
    for the same page and page size before [now + 30], whatever has been
    added, deleted or reserved in between; from [now + 30] on the
    database is read again. *)
Theorem cached_page_outlives_writes (page page_size now later : Z)
    (w : Catalog.World) (shop' : World) :
  Catalog.redis_get now (page, page_size) w = None ->
  let first := Catalog.list_products page page_size now w in
  let w' := {| Catalog.shop := shop'; Catalog.redis := Catalog.redis (snd first) |} in
  fst first
  = Return (Catalog.select_page page_size ((page - 1) * page_size) (Catalog.shop w))
  /\ (later < now + 30 ->
        Catalog.list_products page page_size later w' = (fst first, w'))
  /\ (now + 30 <= later ->
        fst (Catalog.list_products page page_size later w')
        = Return (Catalog.select_page page_size ((page - 1) * page_size) shop')).
Proof.
  intros Hmiss. cbn zeta.
  assert (Hfirst :
    Catalog.list_products page page_size now w
    = (Return (Catalog.select_page page_size ((page - 1) * page_size)
                 (Catalog.shop w)),
       Catalog.redis_set now (page, page_size)
         (Catalog.select_page page_size ((page - 1) * page_size)
            (Catalog.shop w)) w)).
  { unfold Catalog.list_products. by rewrite Hmiss. }
  rewrite Hfirst. cbn [fst snd]. split; [reflexivity |].
  unfold Catalog.list_products, Catalog.redis_get. cbn.
  rewrite lookup_insert_eq.
  split; intros Hlater; destruct (Z.ltb_spec later (now + 30)); try lia; done.
Qed.
End Catalogue.

Lemma product_round_trip_example :
  exists row w1 w2,
    Product.add_product "gear" 9 System.shelf
    = (Return (Product.ProductAdded row), w1)
    /\ Product.id row = 43
    /\ Catalog.get_product 43 w1 = (Return row, w1)
    /\ Product.delete_product 43 w1 = (Return (Product.ProductDeleted 43), w2)
    /\ Product.products w2 = Product.products System.shelf.
Proof.
  destruct (product_round_trip "gear" 9 System.shelf eq_refl)
    as (row & w1 & w2 & Hadd & -> & Hget & _ & Hdel & _ & _ & Hback).
  eexists _, w1, w2. split; [exact Hadd |]. split; [reflexivity |].
  split; [exact Hget |]. split; [exact Hdel | exact Hback].
Defined.



Lemma fresh_page_is_sorted_example :
  exists rows,
    fst (Catalog.list_products 2 2 0 (Catalog.cold Catalog.three)) = Return rows
    /\ rows = [ {| Product.id := 3; Product.name := "gasket";
                   Product.quantity := 7 |} ]
    /\ StronglySorted Catalog.id_le rows.
Proof.
  destruct (fresh_page_is_sorted 2 2 0 (Catalog.cold Catalog.three) eq_refl)
    as (rows & Hrun & Hsorted & _).
  exists rows. split; [exact Hrun |]. split; [| exact Hsorted].
  revert Hrun. vm_compute. by intros [= <-].
Defined.

Lemma pages_tile_the_table_example :
  fst (Catalog.read_pages 2 0 2 (Catalog.cold Catalog.three))
  = [ {| Product.id := 1; Product.name := "anvil"; Product.quantity := 2 |};
      {| Product.id := 2; Product.name := "bolt"; Product.quantity := 90 |};
      {| Product.id := 3; Product.name := "gasket"; Product.quantity := 7 |} ].
Proof.
  destruct (pages_tile_the_table 2 0 2 (Catalog.cold Catalog.three))
    as [Hrows _]; [lia | reflexivity |].
  rewrite Hrows. vm_compute. reflexivity.
Defined.

Lemma cached_page_outlives_writes_example :
  let page :=
    [ {| Product.id := 1; Product.name := "anvil"; Product.quantity := 2 |};
      {| Product.id := 2; Product.name := "bolt"; Product.quantity := 90 |} ] in
  let first := Catalog.list_products 1 2 100 (Catalog.cold Catalog.three) in
  let emptied :=
    {| Catalog.shop := snd (Product.delete_product 1 Catalog.three);
       Catalog.redis := Catalog.redis (snd first) |} in
  fst first = Return page
  /\ Catalog.list_products 1 2 129 emptied = (Return page, emptied)
  /\ fst (Catalog.list_products 1 2 130 emptied)
     = Return [ {| Product.id := 2; Product.name := "bolt"; Product.quantity := 90 |};
                {| Product.id := 3; Product.name := "gasket"; Product.quantity := 7 |} ].
Proof.
  cbn zeta.
  destruct (cached_page_outlives_writes 1 2 100 129 (Catalog.cold Catalog.three)
              (snd (Product.delete_product 1 Catalog.three)) eq_refl)
    as (Hfirst & Hstale & _).
  destruct (cached_page_outlives_writes 1 2 100 130 (Catalog.cold Catalog.three)
              (snd (Product.delete_product 1 Catalog.three)) eq_refl)
    as (_ & _ & Hagain).
  assert (Hpage :
    fst (Catalog.list_products 1 2 100 (Catalog.cold Catalog.three))
    = Return
        [ {| Product.id := 1; Product.name := "anvil"; Product.quantity := 2 |};
          {| Product.id := 2; Product.name := "bolt"; Product.quantity := 90 |} ])
    by (vm_compute; reflexivity).
  split; [exact Hpage |]. split.
  - rewrite <- Hpage. apply Hstale. lia.
  - rewrite Hagain by lia. vm_compute. reflexivity.
Defined.

(** * The user service *)

Section Users.
Import User.
Context `{AuthLib} `{IdentityLib}.
Variable cfg : config.

(** X16. [POST /token] gives the same answer, 400 "Incorrect username or
    password", for a username that is not registered and for a registered
    one with a password that does not verify, and it never changes the
    table of users. *)
Theorem login_does_not_tell_why (username pwd : string) (utcnow : Z)
    (request : Request) (w : World) :
  (users w !! username = None
   \/ (exists row, users w !! username = Some row
                   /\ pwd_verify pwd (password row) = false) ->
   serve cfg (PostToken username pwd utcnow) request w
   = (Reply 400 (HttpError (Some "Incorrect username or password")), w))
  /\ snd (serve cfg (PostToken username pwd utcnow) request w) = w.
Proof.
  cbn. unfold login, authenticate_user, get_user. split.
  - intros [-> | (row & -> & ->)]; reflexivity.
  - destruct (users w !! username) as [row |]; [| reflexivity].
    destruct (pwd_verify pwd (password row)); [| reflexivity].
    by destruct (create_access_token cfg (User.username row) utcnow).
Qed.

(** X17. A username that is free can be registered, and the password
    given then logs in: the token returned is the one the library signs
    for that username with an expiry [JWT_EXPIRE_DAYS] days ahead.
    Registering the same username again is answered 400 and changes
    nothing, so the first password keeps logging in. *)
Theorem register_then_login (username pwd salt token : string)
    (stamp : option Z) (utcnow : Z) (request : Request) (w : World) :
  users w !! username = None ->
  pwd_verify pwd (pwd_hash salt pwd) = true ->
  jwt_encode username (utcnow + jwt_expire_days cfg * 86400) = Return token ->
  exists w',
    serve cfg (PostRegister username pwd salt stamp) request w
    = (Reply 200 (Ok Registered), w')
    /\ serve cfg (PostToken username pwd utcnow) request w'
       = (Reply 200 (Ok (AccessToken token)), w')
    /\ (forall pwd2 salt2 stamp2,
          serve cfg (PostRegister username pwd2 salt2 stamp2) request w'
          = (Reply 400 (HttpError (Some "User already exists")), w'))
    /\ (forall other, other <> username -> users w' !! other = users w !! other).
Proof.
  intros Hfree Hverify Htoken. cbn [serve]. unfold register. rewrite Hfree.
  eexists. split; [reflexivity |].
  unfold login, authenticate_user, get_user, create_access_token.
  cbn [users]. rewrite lookup_insert_eq. cbn [password].
  rewrite Hverify. cbn [User.username]. rewrite Htoken.
  split; [reflexivity |]. split; [reflexivity |].
  intros other Hne. by rewrite lookup_insert_ne.
Qed.

(** X18. A registered user with a token the library decodes to that
    username reads the profile of that user.  Once the user is deleted
    (by that very request or any other), the same token is refused with
    401 by [/profile] and by [DELETE /users/...], a second deletion
    included, and the password no longer logs in; the order service, which
    never looks the subject up, still takes the token for that user. *)
Theorem deleted_user_is_locked_out (request : Request) (token username pwd : string)
    (utcnow : Z) (row : user_row) (w : World) :
  unset (jwt_secret cfg) || unset (jwt_algorithm cfg) = false ->
  bearer_token (authorization request) = Some token ->
  jwt_decode token = Payload (Some username) ->
  users w !! username = Some row ->
  exists w',
    serve cfg GetProfile request w
    = (Reply 200 (Ok (Profile (id row) (User.username row) (created_at row))), w)
    /\ serve cfg (DeleteUsers username) request w
      = (Reply 200 (Ok (UserDeleted username)), w')
    /\ users w' !! username = None
    /\ serve cfg GetProfile request w'
       = (Reply 401 (HttpError (Some "Could not validate credentials")), w')
    /\ (forall target,
          serve cfg (DeleteUsers target) request w'
          = (Reply 401 (HttpError (Some "Could not validate credentials")), w'))
    /\ serve cfg (PostToken username pwd utcnow) request w'
       = (Reply 400 (HttpError (Some "Incorrect username or password")), w')
    /\ Order.get_current_user request = Return username.
Proof.
  intros Hcfg Htoken Hdecode Hrow.
  assert (Hme : get_current_user cfg request w = Return row).
  { unfold get_current_user, get_user. by rewrite Htoken, Hcfg, Hdecode, Hrow. }
  set (w' := {| users := delete username (users w); next_id := next_id w |}).
  assert (Hgone : users w' !! username = None) by apply lookup_delete_eq.
  assert (Hout : get_current_user cfg request w' = Raise credentials_exception).
  { unfold get_current_user, get_user. by rewrite Htoken, Hcfg, Hdecode, Hgone. }
  exists w'. cbn [serve]. rewrite Hme, Hout. unfold delete_user. rewrite Hrow.
  split; [reflexivity |]. split; [reflexivity |]. split; [exact Hgone |].
  split; [reflexivity |]. split; [reflexivity |]. split.
  - unfold login, authenticate_user, get_user. by rewrite Hgone.
  - unfold Order.get_current_user. by rewrite Htoken, Hdecode.
Qed.

(** X19. [DELETE /users/{username}] deletes the user named in the path
    for any authenticated user, whoever that is, and touches no other
    user; an unknown username is answered 404 and nothing is deleted. *)
Theorem delete_user_by_any_user (request : Request) (requester : user_row)
    (target : string) (w : World) :
  get_current_user cfg request w = Return requester ->
  (forall row, users w !! target = Some row ->
     exists w',
       serve cfg (DeleteUsers target) request w
       = (Reply 200 (Ok (UserDeleted target)), w')
       /\ users w' !! target = None
       /\ (forall other, other <> target -> users w' !! other = users w !! other))
  /\ (users w !! target = None ->
        serve cfg (DeleteUsers target) request w
        = (Reply 404 (HttpError (Some "User not found")), w)).
Proof.
  intros Hwho. cbn. rewrite Hwho. unfold delete_user. split.
  - intros row ->. eexists. split; [reflexivity |]. cbn. split.
    + apply lookup_delete_eq.
    + intros other Hne. by rewrite lookup_delete_ne.
  - by intros ->.
Qed.

(** X20. When the secret or the algorithm is not configured, every
    request that carries a bearer token, valid or not, is answered 500
    "JWT configuration missing" by [/profile] and [DELETE /users/...], and
    nothing is deleted. *)
Theorem unconfigured_service_answers_500 (request : Request) (token : string)
    (w : World) :
  unset (jwt_secret cfg) || unset (jwt_algorithm cfg) = true ->
  bearer_token (authorization request) = Some token ->
  serve cfg GetProfile request w
  = (Reply 500 (HttpError (Some "JWT configuration missing")), w)
  /\ (forall target,
        serve cfg (DeleteUsers target) request w
        = (Reply 500 (HttpError (Some "JWT configuration missing")), w)).
Proof.
  intros Hcfg Htoken. cbn. unfold get_current_user.
  by rewrite Htoken, Hcfg.
Qed.
End Users.

Lemma login_does_not_tell_why_example :
  User.serve (H := System.toy_lib) (H0 := User.toy_identity) User.configured
    (User.PostToken "mallory" "secret" 0) anonymous User.two_users
  = (Reply 400 (HttpError (Some "Incorrect username or password")), User.two_users)
  /\ User.serve (H := System.toy_lib) (H0 := User.toy_identity) User.configured
       (User.PostToken "alice" "wrong" 0) anonymous User.two_users
     = (Reply 400 (HttpError (Some "Incorrect username or password")), User.two_users).
Proof.
  split.
  - apply (login_does_not_tell_why (H := System.toy_lib) (H0 := User.toy_identity) User.configured
             "mallory" "secret" 0 anonymous User.two_users).
    left. reflexivity.
  - apply (login_does_not_tell_why (H := System.toy_lib) (H0 := User.toy_identity) User.configured
             "alice" "wrong" 0 anonymous User.two_users).
    right. eexists. split; reflexivity.
Defined.

Lemma register_then_login_example :
  exists w',
    User.serve (H := System.toy_lib) (H0 := User.toy_identity) User.configured
      (User.PostRegister "qauser" "secret" "salt" (Some 1700000000))
      anonymous User.nobody
    = (Reply 200 (Ok User.Registered), w')
    /\ User.serve (H := System.toy_lib) (H0 := User.toy_identity) User.configured
         (User.PostToken "qauser" "secret" 1700000000) anonymous w'
       = (Reply 200 (Ok (User.AccessToken "qauser.jwt")), w')
    /\ User.serve (H := System.toy_lib) (H0 := User.toy_identity) User.configured
         (User.PostRegister "qauser" "secret" "pepper" None) anonymous w'
       = (Reply 400 (HttpError (Some "User already exists")), w').
Proof.
  destruct (register_then_login (H := System.toy_lib) (H0 := User.toy_identity) User.configured
              "qauser" "secret" "salt" "qauser.jwt" (Some 1700000000) 1700000000
              anonymous User.nobody)
    as (w' & Hreg & Hlogin & Hagain & _); [reflexivity | reflexivity | reflexivity |].
  exists w'. split; [exact Hreg |]. split; [exact Hlogin | apply Hagain].
Defined.

Lemma deleted_user_is_locked_out_example :
  exists w',
    User.serve (H := System.toy_lib) (H0 := User.toy_identity) User.configured
      (User.DeleteUsers "alice") (System.bearer "alice.jwt") User.two_users
    = (Reply 200 (Ok (User.UserDeleted "alice")), w')
    /\ User.serve (H := System.toy_lib) (H0 := User.toy_identity) User.configured
         (User.DeleteUsers "alice") (System.bearer "alice.jwt") w'
       = (Reply 401 (HttpError (Some "Could not validate credentials")), w')
    /\ Order.get_current_user (H := System.toy_lib) (System.bearer "alice.jwt")
       = Return "alice".
Proof.
  destruct (deleted_user_is_locked_out (H := System.toy_lib)
              (H0 := User.toy_identity) User.configured
              (System.bearer "alice.jwt") "alice.jwt" "alice" "secret" 0
              {| User.id := 1; User.username := "alice";
                 User.password := User.toy_hash "salt" "secret";
                 User.created_at := Some 1700000000 |}
              User.two_users)
    as (w' & _ & Hdel & _ & _ & Hagain & _ & Horder);
    [reflexivity | reflexivity | reflexivity | reflexivity |].
  exists w'. split; [exact Hdel |]. split; [apply Hagain | exact Horder].
Defined.

Lemma delete_user_by_any_user_example :
  exists w',
    User.serve (H := System.toy_lib) (H0 := User.toy_identity) User.configured
      (User.DeleteUsers "alice") (System.bearer "bob.jwt") User.two_users
    = (Reply 200 (Ok (User.UserDeleted "alice")), w')
    /\ User.users w' !! "alice" = None.
Proof.
  destruct (delete_user_by_any_user (H := System.toy_lib)
              (H0 := User.toy_identity) User.configured
              (System.bearer "bob.jwt")
              {| User.id := 2; User.username := "bob";
                 User.password := User.toy_hash "pepper" "hunter2";
                 User.created_at := Some 1700000060 |}
              "alice" User.two_users)
    as [Hdel _]; [reflexivity |].
  destruct (Hdel _ eq_refl) as (w' & Hrun & Hgone & _).
  exists w'. split; [exact Hrun | exact Hgone].
Defined.

Lemma unconfigured_service_answers_500_example :
  User.serve (H := System.toy_lib) (H0 := User.toy_identity) User.unconfigured
    User.GetProfile (System.bearer "forged.jwt") User.two_users
  = (Reply 500 (HttpError (Some "JWT configuration missing")), User.two_users).
Proof.
  destruct (unconfigured_service_answers_500 (H := System.toy_lib)
              (H0 := User.toy_identity) User.unconfigured
              (System.bearer "forged.jwt") "forged.jwt" User.two_users)
    as [Hprofile _]; [reflexivity | reflexivity |].
  exact Hprofile.
Defined.

(** * Observability *)

Section Observed.
Import Observability.

Lemma no_stream_handler (hs : list handler) :
  existsb is_stream hs = false ->
  filter (fun h => is_stream h = true) hs = [].
Proof.
  induction hs as [| h hs IH]; [done |]. cbn [existsb].
  intros [Hh Hhs]%orb_false_iff. rewrite filter_cons.
  rewrite decide_False by congruence. by apply IH.
Qed.

(** X21. The first call of [init_observability] in a process leaves the
    root logger at level INFO with exactly one stream handler, the JSON
    one, added last (after the earlier handlers, or alone when one of
    them was a stream handler); it registers one tracer provider,
    instruments the application once and exposes its metrics once.
    Every later call, for whatever application, service name or
    endpoint, changes nothing. *)
Theorem init_observability_once (app service_name : string)
    (otlp_endpoint : option string) (w : World) :
  initialized w = false ->
  let w1 := init_observability app service_name otlp_endpoint w in
  filter (fun h => is_stream h = true) (handlers w1) = [StreamHandler true]
  /\ (existsb is_stream (handlers w) = true -> handlers w1 = [StreamHandler true])
  /\ (existsb is_stream (handlers w) = false ->
      handlers w1 = handlers w ++ [StreamHandler true])
  /\ last (handlers w1) = Some (StreamHandler true)
  /\ root_level w1 = INFO
  /\ length (providers w1) = S (length (providers w))
  /\ instrumented w1 = instrumented w ++ [app]
  /\ metrics w1 = metrics w ++ [app]
  /\ (forall app' service_name' otlp_endpoint',
        init_observability app' service_name' otlp_endpoint' w1 = w1).
Proof.
  intros Hfirst. cbn zeta. unfold init_observability at 1 2 3 4 5 6 7 8.
  rewrite Hfirst. cbn.
  split; [| split; [| split; [| split; [apply last_snoc |]]]].
  - rewrite filter_app. destruct (existsb is_stream (handlers w)) eqn:Hany.
    + reflexivity.
    + by rewrite (no_stream_handler _ Hany).
  - by intros ->.
  - by intros ->.
  - split; [reflexivity |]. split; [rewrite length_app; cbn; lia |].
    split; [reflexivity |]. split; [reflexivity |].
    intros app' service_name' otlp_endpoint'.
    unfold init_observability. rewrite Hfirst. reflexivity.
Qed.
End Observed.

Lemma init_observability_once_example :
  let w1 :=
    Observability.init_observability "user-app" "user-service" None
      (Observability.untouched
         [Observability.OtherHandler "file"; Observability.StreamHandler false]) in
  Observability.handlers w1 = [Observability.StreamHandler true]
  /\ Observability.init_observability "order-app" "order-service" None w1 = w1
  /\ Observability.instrumented w1 = ["user-app"].
Proof.
  cbn zeta.
  destruct (init_observability_once "user-app" "user-service" None
              (Observability.untouched
                 [Observability.OtherHandler "file";
                  Observability.StreamHandler false]) eq_refl)
    as (_ & Hdropped & _ & _ & _ & _ & Happ & _ & Hagain).
  split; [by apply Hdropped |]. split; [apply Hagain | exact Happ].
Defined.

(** * The consumers *)

Section Consumers.
Import Consumer.

Lemma start_consuming_acks (callback : delivery -> World -> World)
    (failed : string) (deliveries : list delivery) :
  (forall d w, acks (callback d w) = acks w
               /\ consuming (callback d w) = consuming w) ->
  Forall (fun d => acked d = true) deliveries ->
  forall w,
    acks (start_consuming callback failed deliveries w)
    = acks w ++ (tag <$> deliveries)
    /\ consuming (start_consuming callback failed deliveries w) = consuming w.
Proof.
  intros Hcallback Hacked.
  induction Hacked as [| d rest Hd _ IH]; intros w; cbn [start_consuming].
  - by rewrite app_nil_r.
  - rewrite Hd. destruct (IH {| acks := acks (callback d w) ++ [tag d];
                                log := log (callback d w);
                                consuming := consuming (callback d w) |})
      as [-> ->]. cbn.
    destruct (Hcallback d w) as [-> ->]. by rewrite <- app_assoc.
Qed.

Lemma start_consuming_stops (callback : delivery -> World -> World)
    (failed : string) (before after : list delivery) (d : delivery) :
  (forall d w, acks (callback d w) = acks w) ->
  Forall (fun d => acked d = true) before ->
  acked d = false ->
  forall w,
    acks (start_consuming callback failed (before ++ d :: after) w)
    = acks w ++ (tag <$> before)
    /\ consuming (start_consuming callback failed (before ++ d :: after) w) = false
    /\ last (log (start_consuming callback failed (before ++ d :: after) w))
       = Some failed.
Proof.
  intros Hcallback Hbefore Hd.
  induction Hbefore as [| b rest Hb _ IH]; intros w;
    cbn [app start_consuming].
  - rewrite Hd. cbn. rewrite Hcallback, app_nil_r.
    split; [done |]. split; [done |]. apply last_snoc.
  - rewrite Hb. destruct (IH {| acks := acks (callback b w) ++ [tag b];
                                log := log (callback b w);
                                consuming := consuming (callback b w) |})
      as (-> & -> & ->). cbn.
    rewrite Hcallback. by rewrite <- app_assoc.
Qed.

Lemma on_message_log (failed : string) (deliveries : list delivery) :
  Forall (fun d => acked d = true) deliveries ->
  forall w,
    log (start_consuming on_message failed deliveries w)
    = log w
      ++ replicate (length (filter (fun d => processed d = false) deliveries))
           "Could not process inventory message".
Proof.
  intros Hacked.
  induction Hacked as [| d rest Hd _ IH]; intros w; cbn [start_consuming].
  - by rewrite app_nil_r.
  - rewrite Hd, IH, filter_cons. cbn [log on_message].
    destruct (processed d).
    + by rewrite decide_False.
    + rewrite decide_True by done. cbn [length replicate].
      by rewrite <- app_assoc.
Qed.

Lemma _on_msg_log (failed : string) (deliveries : list delivery) :
  Forall (fun d => acked d = true) deliveries ->
  forall w, log (start_consuming _on_msg failed deliveries w) = log w.
Proof.
  intros Hacked.
  induction Hacked as [| d rest Hd _ IH]; intros w; cbn [start_consuming];
    [done |].
  rewrite Hd, IH. reflexivity.
Qed.

(** X22. Both consumers acknowledge every delivery, in the order of
    arrival and exactly once, whether or not its body could be processed:
    the consumer of the order service logs one warning per delivery it
    could not process, the consumer of the product service logs nothing.
    If an acknowledgement itself fails, the consumer logs its failure and
    stops for good: the deliveries before it are acknowledged, the ones
    from it on are not.  If connecting fails, nothing is consumed. *)
Theorem consumers_acknowledge_everything (deliveries : list delivery) (w : World) :
  (Forall (fun d => acked d = true) deliveries ->
   acks (consume_inventory_events true deliveries w)
   = acks w ++ (tag <$> deliveries)
   /\ log (consume_inventory_events true deliveries w)
      = log w
        ++ replicate (length (filter (fun d => processed d = false) deliveries))
             "Could not process inventory message"
   /\ consuming (consume_inventory_events true deliveries w) = true
   /\ acks (_consume_orders true deliveries w) = acks w ++ (tag <$> deliveries)
   /\ log (_consume_orders true deliveries w) = log w)
  /\ (forall before d after,
        deliveries = before ++ d :: after ->
        Forall (fun d => acked d = true) before ->
        acked d = false ->
        acks (consume_inventory_events true deliveries w)
        = acks w ++ (tag <$> before)
        /\ consuming (consume_inventory_events true deliveries w) = false
        /\ last (log (consume_inventory_events true deliveries w))
           = Some "Inventory consumer failed")
  /\ (acks (consume_inventory_events false deliveries w) = acks w
      /\ consuming (consume_inventory_events false deliveries w) = false
      /\ log (consume_inventory_events false deliveries w)
         = log w ++ ["Inventory consumer failed"]).
Proof.
  split; [| split].
  - intros Hacked. unfold consume_inventory_events, _consume_orders.
    destruct (start_consuming_acks on_message "Inventory consumer failed"
                deliveries) with
      (w := {| acks := acks w; log := log w; consuming := true |})
      as [Hacks Hon]; [done | exact Hacked |].
    destruct (start_consuming_acks _on_msg "RabbitMQ consumer failed"
                deliveries) with
      (w := {| acks := acks w; log := log w; consuming := true |})
      as [Hacks' _]; [done | exact Hacked |].
    rewrite Hacks, Hon, Hacks', (on_message_log _ _ Hacked),
      (_on_msg_log _ _ Hacked).
    repeat split; reflexivity.
  - intros before d after -> Hbefore Hd. unfold consume_inventory_events.
    exact (start_consuming_stops on_message "Inventory consumer failed"
             before after d (fun _ _ => eq_refl) Hbefore Hd
             {| acks := acks w; log := log w; consuming := true |}).
  - done.
Qed.
End Consumers.

Lemma consumers_acknowledge_everything_example :
  Consumer.acks
    (Consumer.consume_inventory_events true
       [ {| Consumer.tag := 1; Consumer.processed := true; Consumer.acked := true |};
         {| Consumer.tag := 2; Consumer.processed := false; Consumer.acked := true |};
         {| Consumer.tag := 3; Consumer.processed := true; Consumer.acked := true |} ]
       Consumer.idle)
  = [1; 2; 3]
  /\ Consumer.log
       (Consumer.consume_inventory_events true
          [ {| Consumer.tag := 1; Consumer.processed := true; Consumer.acked := true |};
            {| Consumer.tag := 2; Consumer.processed := false; Consumer.acked := true |};
            {| Consumer.tag := 3; Consumer.processed := true; Consumer.acked := true |} ]
          Consumer.idle)
     = ["Could not process inventory message"].
Proof.
  destruct (consumers_acknowledge_everything
              [ {| Consumer.tag := 1; Consumer.processed := true; Consumer.acked := true |};
                {| Consumer.tag := 2; Consumer.processed := false; Consumer.acked := true |};
                {| Consumer.tag := 3; Consumer.processed := true; Consumer.acked := true |} ]
              Consumer.idle) as [Hall _].
  destruct Hall as (Hacks & Hlog & _); [repeat constructor |].
  split; [exact Hacks | exact Hlog].
Defined.

(** * Placing, listing and deleting together *)

Section PlaceListDelete.
Import Order.
Context {R : Type} {cols : Columns} (post : Request -> R -> attempt * R).

Lemma create_order_returns (productname : string) (product_id n : Z)
    (request : Request) (user : string) (e : env) (w w' : World R) (d : done) :
  create_order post productname product_id n request user e w = (Return d, w') ->
  orders w !! next_id w = None
  /\ d = OrderPlaced {| id := next_id w; productname := productname;
                        product_id := product_id; quantity := n;
                        username := user; status := "CONFIRMED" |}
  /\ orders w'
     = <[next_id w := {| id := next_id w; productname := productname;
                         product_id := product_id; quantity := n;
                         username := user; status := "CONFIRMED" |}]> (orders w).
Proof.
  unfold create_order.
  destruct (reserve_inventory post request product_id n w) as [[[] | exc1] w1]
    eqn:Hreserve; [| discriminate].
  destruct (reserve_loop_frame post _ _ _ _ _ _ Hreserve) as (Horders & Hnext & _).
  unfold insert_order. destruct (insert_ok e); cbn; [| discriminate].
  destruct (orders w1 !! next_id w1) eqn:Hfree; cbn; [discriminate |].
  intros [= <- <-]. cbn. rewrite <- Horders, <- Hnext. by repeat split.
Qed.

Lemma list_orders_rows (user : string) (w : World R) :
  exists rows,
    list_orders user w = (Return (Orders rows), w)
    /\ (forall row, row ∈ rows <->
          exists i, orders w !! i = Some row /\ username row = user).
Proof.
  eexists. split; [reflexivity |].
  intros row. rewrite list_elem_of_fmap. split.
  - intros ([i row'] & -> & Hin).
    apply elem_of_map_to_list, map_lookup_filter_Some in Hin as [Hrow Hown].
    by exists i.
  - intros (i & Hrow & Hown). exists (i, row). split; [done |].
    by apply elem_of_map_to_list, map_lookup_filter_Some.
Qed.

(** X23. An order that was placed shows in the list of the user who
    placed it, next to the orders that user had before, and in nobody
    else's list; deleting it by its identifier brings the table of orders
    back to what it was before the placement. *)
Theorem placed_order_is_listed (productname : string) (product_id n : Z)
    (request : Request) (user : string) (e : env) (w w' : World R)
    (order : order_row) :
  create_order post productname product_id n request user e w
  = (Return (OrderPlaced order), w') ->
  (exists rows,
     list_orders user w' = (Return (Orders rows), w')
     /\ order ∈ rows
     /\ (forall row, row ∈ rows <->
           row = order
           \/ exists i, orders w !! i = Some row /\ username row = user))
  /\ (forall other rows rows',
        other <> user ->
        list_orders other w = (Return (Orders rows), w) ->
        list_orders other w' = (Return (Orders rows'), w') ->
        forall row, row ∈ rows' <-> row ∈ rows)
  /\ (forall anyone, exists w'',
        delete_order (id order) anyone w' = (Return (OrderDeleted (id order)), w'')
        /\ orders w'' = orders w).
Proof.
  intros Hrun.
  destruct (create_order_returns _ _ _ _ _ _ _ _ _ Hrun) as (Hfree & Horder & Hrows).
  injection Horder as ->.
  assert (Hnew : forall i row,
            orders w' !! i = Some row <->
            (i = next_id w
             /\ row = {| id := next_id w; productname := productname;
                         product_id := product_id; quantity := n;
                         username := user; status := "CONFIRMED" |})
            \/ orders w !! i = Some row).
  { intros i row. rewrite Hrows, lookup_insert. case_decide as Hi.
    - subst i. rewrite Hfree. split.
      + intros [= <-]. by left.
      + intros [[_ ->] | Hold]; [done | discriminate].
    - split; [by right |]. intros [[Heq _] | Hold]; [congruence | done]. }
  split; [| split].
  - destruct (list_orders_rows user w') as (rows & Hlist & Hin).
    exists rows. split; [exact Hlist |].
    assert (Hall : forall row, row ∈ rows <->
              row = {| id := next_id w; productname := productname;
                       product_id := product_id; quantity := n;
                       username := user; status := "CONFIRMED" |}
              \/ exists i, orders w !! i = Some row /\ username row = user).
    { intros row. rewrite Hin. split.
      - intros (i & Hrow & Hown). apply Hnew in Hrow as [[_ ->] | Hold];
          [by left | right; by exists i].
      - intros [-> | (i & Hold & Hown)].
        + exists (next_id w). split; [apply Hnew; by left | done].
        + exists i. split; [apply Hnew; by right | done]. }
    split; [apply Hall; by left | exact Hall].
  - intros other rows rows' Hother Hbefore Hafter.
    destruct (list_orders_rows other w) as (rows0 & Hlist0 & Hin0).
    destruct (list_orders_rows other w') as (rows1 & Hlist1 & Hin1).
    rewrite Hlist0 in Hbefore. rewrite Hlist1 in Hafter.
    injection Hbefore as <-. injection Hafter as <-.
    intros row. rewrite Hin0, Hin1. split.
    + intros (i & Hrow & Hown). apply Hnew in Hrow as [[_ ->] | Hold].
      * cbn in Hown. congruence.
      * by exists i.
    + intros (i & Hold & Hown). exists i. split; [apply Hnew; by right | done].
  - intros anyone. unfold delete_order. cbn [id].
    rewrite Hrows, lookup_insert_eq. eexists. split; [reflexivity |]. cbn.
    rewrite delete_insert_eq. by apply delete_id.
Qed.
End PlaceListDelete.

Lemma placed_order_is_listed_example :
  exists order w' rows,
    Order.create_order (System.constant_post (Order.Answers 200 (Some None)))
      "bolt" 2 4 (System.bearer "bob.jwt") "bob"
      {| Order.insert_ok := true; Order.bus := BusOk |} two_orders
    = (Return (Order.OrderPlaced order), w')
    /\ Order.id order = 3
    /\ Order.list_orders "bob" w' = (Return (Order.Orders rows), w')
    /\ order ∈ rows.
Proof.
  set (run := Order.create_order (System.constant_post (Order.Answers 200 (Some None)))
                "bolt" 2 4 (System.bearer "bob.jwt") "bob"
                {| Order.insert_ok := true; Order.bus := BusOk |} two_orders).
  assert (Hrun : run
    = (Return (Order.OrderPlaced
                 {| Order.id := 3; Order.productname := "bolt";
                    Order.product_id := 2; Order.quantity := 4;
                    Order.username := "bob"; Order.status := "CONFIRMED" |}),
       snd run)) by (vm_compute; reflexivity).
  destruct (placed_order_is_listed _ _ _ _ _ _ _ _ _ _ Hrun)
    as ((rows & Hlist & Hin & _) & _).
  eexists _, (snd run), rows. split; [exact Hrun |]. split; [reflexivity |].
  split; [exact Hlist | exact Hin].
Defined.

(** * The two services as they are wired *)

Section DeclaredWiring.
Context {cols : Columns} `{AuthLib}.

Lemma declared_post_falls_through (b : bus_outcome) (request : Request)
    (product_id n : Z) (r : Product.World) :
  exists a,
    System.declared_post b (Order.outbound request product_id n) r = (a, r)
    /\ Order.try_body a = Order.FallsThrough.
Proof.
  unfold System.declared_post, Product.reserve_endpoint.
  destruct (Product.get_current_user (Order.outbound request product_id n))
    as [user | exc] eqn:Huser.
  - eexists. split; reflexivity.
  - destruct (product_user_raises _ _ Huser) as [detail ->].
    eexists. split; reflexivity.
Qed.

Lemma declared_loop (b : bus_outcome) (request : Request) (product_id n : Z)
    (delays : list Q) :
  forall w : Order.World Product.World,
    exists w',
      Order.reserve_loop (System.declared_post b) delays None
        (Order.outbound request product_id n) w = (Return tt, w')
      /\ Order.remote w' = Order.remote w
      /\ Order.slept w' = Order.slept w
      /\ Order.orders w' = Order.orders w
      /\ Order.next_id w' = Order.next_id w
      /\ length (Order.posts w') = (length (Order.posts w) + length delays)%nat.
Proof.
  induction delays as [| delay rest IH]; intros w; cbn [Order.reserve_loop].
  - exists w. cbn. by repeat split.
  - destruct (declared_post_falls_through b request product_id n (Order.remote w))
      as (a & -> & ->).
    destruct (IH (Order.sent (Order.outbound request product_id n)
                    (Order.remote w) w))
      as (w' & Hrun & Hremote & Hslept & Horders & Hnext & Hposts).
    exists w'. split; [exact Hrun |]. cbn in *.
    rewrite length_app in Hposts. cbn in Hposts.
    repeat split; try done. lia.
Qed.

(** X24. With the product service behind the reservation client as it
    is declared, an order placement never reserves anything: whatever the
    token, the product and the stock, the three requests of the client are
    answered 401 or 422, the products are left exactly as they were,
    nothing is slept, and the placement goes on to insert the order and to
    report it as placed. *)
Theorem declared_wiring_never_reserves (b : bus_outcome) (productname : string)
    (product_id n : Z) (request : Request) (user : string) (e : Order.env)
    (w : Order.World Product.World) :
  let run := Order.create_order (System.declared_post b) productname product_id n
               request user e w in
  (forall r, exists answer,
     Product.reserve_endpoint (Order.outbound request product_id n) b r
     = (answer, r)
     /\ (status_code answer = 401 \/ status_code answer = 422))
  /\ Order.remote (snd run) = Order.remote w
  /\ Order.slept (snd run) = Order.slept w
  /\ length (Order.posts (snd run)) = (length (Order.posts w) + 3)%nat
  /\ (Order.insert_ok e = true ->
      Order.orders w !! Order.next_id w = None ->
      exists order,
        fst run = Return (Order.OrderPlaced order)
        /\ Order.orders (snd run) !! Order.next_id w = Some order
        /\ Order.username order = user).
Proof.
  cbn zeta. split.
  { intros r. unfold Product.reserve_endpoint.
    destruct (Product.get_current_user (Order.outbound request product_id n))
      as [who | exc] eqn:Hwho.
    - eexists. split; [reflexivity |]. by right.
    - destruct (product_user_raises _ _ Hwho) as [detail ->].
      eexists. split; [reflexivity |]. by left. }
  unfold Order.create_order, Order.reserve_inventory.
  destruct (declared_loop b request product_id n Order.backoff w)
    as (w1 & -> & Hremote & Hslept & Horders & Hnext & Hposts).
  unfold Order.insert_order.
  destruct (Order.insert_ok e); cbn.
  - destruct (Order.orders w1 !! Order.next_id w1) eqn:Hfree; cbn.
    + repeat split; try done. intros _ Hnone. congruence.
    + repeat split; try done. intros _ _. eexists.
      split; [reflexivity |]. rewrite Hnext, lookup_insert_eq. by split.
  - repeat split; try done.
Qed.
End DeclaredWiring.

Lemma declared_wiring_never_reserves_example :
  exists order,
    fst (Order.create_order (System.declared_post (H := System.toy_lib) BusOk)
           "widget" 42 3 (System.bearer "alice.jwt") "alice"
           {| Order.insert_ok := true; Order.bus := BusOk |}
           (System.fresh System.shelf))
    = Return (Order.OrderPlaced order)
    /\ Order.remote
         (snd (Order.create_order (System.declared_post (H := System.toy_lib) BusOk)
                 "widget" 42 3 (System.bearer "alice.jwt") "alice"
                 {| Order.insert_ok := true; Order.bus := BusOk |}
                 (System.fresh System.shelf)))
       = System.shelf.
Proof.
  destruct (declared_wiring_never_reserves (H := System.toy_lib) BusOk
              "widget" 42 3 (System.bearer "alice.jwt") "alice"
              {| Order.insert_ok := true; Order.bus := BusOk |}
              (System.fresh System.shelf))
    as (_ & Hremote & _ & _ & Hplaced).
  destruct Hplaced as (order & Hrun & _); [reflexivity | reflexivity |].
  exists order. split; [exact Hrun | exact Hremote].
Defined.
